(** * LTC6811 daisy-chain driver: PEC15 codec, commands, register-group
    transactions, voltage status and discharge configuration.

    Shallow embedding of [LTC6811.h] and [LTC6811.cpp].  Unsigned machine
    integers are [Z] with the wrap-around written out at every store;
    [std::array] is a list read and written by index; the driver object and the
    bus it talks to are threaded through a small state monad. *)

From Stdlib Require Import ZArith List Bool Lia.
From stdpp Require Import base list.
Import ListNotations.
Local Open Scope Z_scope.

(** ** Machine integers *)

(** A store into an unsigned integer of [bits] bits keeps the low bits. *)
Definition wrap (bits x : Z) : Z := x mod 2 ^ bits.

Definition u8 : Z -> Z := wrap 8.
Definition u16 : Z -> Z := wrap 16.

(** [size_t] on the 32-bit target the HAL calls are written for. *)
Definition usize : Z -> Z := wrap 32.

(** ** Constants of [LTC6811.h] *)

Definition kBytesPerRegister : Z := 8.
Definition kDaisyChainLength : Z := 12.
Definition kCommandLength : Z := 4.
Definition kDelta : Z := 100.

Definition T_WAKE_MAX : Z := 400.
Definition T_REFUP_MAX : Z := 4400.
Definition T_CYCLE_FAST_MAX : Z := 1185.

(** ** PEC15 *)

Definition crc15Table : list Z :=
  [
    0x0000; 0xc599; 0xceab; 0x0b32; 0xd8cf; 0x1d56; 0x1664; 0xd3fd;
    0xf407; 0x319e; 0x3aac; 0xff35; 0x2cc8; 0xe951; 0xe263; 0x27fa;
    0xad97; 0x680e; 0x633c; 0xa6a5; 0x7558; 0xb0c1; 0xbbf3; 0x7e6a;
    0x5990; 0x9c09; 0x973b; 0x52a2; 0x815f; 0x44c6; 0x4ff4; 0x8a6d;
    0x5b2e; 0x9eb7; 0x9585; 0x501c; 0x83e1; 0x4678; 0x4d4a; 0x88d3;
    0xaf29; 0x6ab0; 0x6182; 0xa41b; 0x77e6; 0xb27f; 0xb94d; 0x7cd4;
    0xf6b9; 0x3320; 0x3812; 0xfd8b; 0x2e76; 0xebef; 0xe0dd; 0x2544;
    0x02be; 0xc727; 0xcc15; 0x098c; 0xda71; 0x1fe8; 0x14da; 0xd143;
    0xf3c5; 0x365c; 0x3d6e; 0xf8f7; 0x2b0a; 0xee93; 0xe5a1; 0x2038;
    0x07c2; 0xc25b; 0xc969; 0x0cf0; 0xdf0d; 0x1a94; 0x11a6; 0xd43f;
    0x5e52; 0x9bcb; 0x90f9; 0x5560; 0x869d; 0x4304; 0x4836; 0x8daf;
    0xaa55; 0x6fcc; 0x64fe; 0xa167; 0x729a; 0xb703; 0xbc31; 0x79a8;
    0xa8eb; 0x6d72; 0x6640; 0xa3d9; 0x7024; 0xb5bd; 0xbe8f; 0x7b16;
    0x5cec; 0x9975; 0x9247; 0x57de; 0x8423; 0x41ba; 0x4a88; 0x8f11;
    0x057c; 0xc0e5; 0xcbd7; 0x0e4e; 0xddb3; 0x182a; 0x1318; 0xd681;
    0xf17b; 0x34e2; 0x3fd0; 0xfa49; 0x29b4; 0xec2d; 0xe71f; 0x2286;
    0xa213; 0x678a; 0x6cb8; 0xa921; 0x7adc; 0xbf45; 0xb477; 0x71ee;
    0x5614; 0x938d; 0x98bf; 0x5d26; 0x8edb; 0x4b42; 0x4070; 0x85e9;
    0x0f84; 0xca1d; 0xc12f; 0x04b6; 0xd74b; 0x12d2; 0x19e0; 0xdc79;
    0xfb83; 0x3e1a; 0x3528; 0xf0b1; 0x234c; 0xe6d5; 0xede7; 0x287e;
    0xf93d; 0x3ca4; 0x3796; 0xf20f; 0x21f2; 0xe46b; 0xef59; 0x2ac0;
    0x0d3a; 0xc8a3; 0xc391; 0x0608; 0xd5f5; 0x106c; 0x1b5e; 0xdec7;
    0x54aa; 0x9133; 0x9a01; 0x5f98; 0x8c65; 0x49fc; 0x42ce; 0x8757;
    0xa0ad; 0x6534; 0x6e06; 0xab9f; 0x7862; 0xbdfb; 0xb6c9; 0x7350;
    0x51d6; 0x944f; 0x9f7d; 0x5ae4; 0x8919; 0x4c80; 0x47b2; 0x822b;
    0xa5d1; 0x6048; 0x6b7a; 0xaee3; 0x7d1e; 0xb887; 0xb3b5; 0x762c;
    0xfc41; 0x39d8; 0x32ea; 0xf773; 0x248e; 0xe117; 0xea25; 0x2fbc;
    0x0846; 0xcddf; 0xc6ed; 0x0374; 0xd089; 0x1510; 0x1e22; 0xdbbb;
    0x0af8; 0xcf61; 0xc453; 0x01ca; 0xd237; 0x17ae; 0x1c9c; 0xd905;
    0xfeff; 0x3b66; 0x3054; 0xf5cd; 0x2630; 0xe3a9; 0xe89b; 0x2d02;
    0xa76f; 0x62f6; 0x69c4; 0xac5d; 0x7fa0; 0xba39; 0xb10b; 0x7492;
    0x5368; 0x96f1; 0x9dc3; 0x585a; 0x8ba7; 0x4e3e; 0x450c; 0x8095
  ].

(** [a[i]] on a byte buffer, for an index held in an integer variable. *)
Definition byte_at (a : list Z) (i : Z) : Z := nth (Z.to_nat i) a 0.

(** One pass through the body of the [for] loop of [PEC15Calc], followed by
    its [++i] on the [uint8_t] counter. *)
Definition PEC15Calc_body (serialized_data : list Z) (i PEC : Z) : Z * Z :=
  let addr := u16 (Z.land (Z.lxor (Z.shiftr PEC 7) (byte_at serialized_data i)) 0xFF) in
  let PEC := u16 (Z.lxor (Z.shiftl PEC 8) (byte_at crc15Table addr)) in
  (u8 (i + 1), PEC).

(** The loop [for (uint8_t i = 0; i < size; ++i)], then the final
    [return PEC << 1].  [fuel] bounds the number of times the loop test is
    evaluated; [None] means the test was still true when it ran out. *)
Fixpoint PEC15Calc_loop (fuel : nat) (serialized_data : list Z) (size i PEC : Z)
  : option Z :=
  match fuel with
  | O => None
  | S fuel' =>
      if i <? size then
        let '(i', PEC') := PEC15Calc_body serialized_data i PEC in
        PEC15Calc_loop fuel' serialized_data size i' PEC'
      else Some (u16 (Z.shiftl PEC 1))
  end.

(** [PEC15Calc(data, size)] run from [PEC{ 16 }] and [i = 0]. *)
Definition PEC15Calc_run (fuel : nat) (serialized_data : list Z) (size : Z)
  : option Z :=
  PEC15Calc_loop fuel serialized_data size 0 16.

(** The counter has 256 values, so 257 loop tests decide every call: the
    driver itself only passes 2 (a command) or 6 (a register). *)
Definition PEC15Calc (serialized_data : list Z) (size : Z) : Z :=
  match PEC15Calc_run 257 serialized_data size with
  | Some PEC => PEC
  | None => 0
  end.

(** The algorithm in the words of the codec's contract: start from 16, fold
    every byte through the table, shift the 16-bit result left by one. *)
Definition pec15_fold_step (acc byte : Z) : Z :=
  let index := Z.land (Z.lxor (Z.shiftr acc 7) byte) 0xFF in
  u16 (Z.lxor (Z.shiftl acc 8) (byte_at crc15Table index)).

Definition pec15_contract (bytes : list Z) : Z :=
  u16 (Z.shiftl (fold_left pec15_fold_step bytes 16) 1).

(** ** Commands *)

(** [enum Mode { Fast = 1, Normal, Filtered }] and the other selectors, with
    the integer each enumerator converts to. *)
Inductive Mode := Fast | Normal | Filtered.
Inductive DCP := Disabled | Enabled.
Inductive CellCh :=
  AllCell | OneAndSeven | TwoAndEight | ThreeAndNine | FourAndTen
| FiveAndEleven | SixAndTwelve.
Inductive AuxCh := AllAux | GPIO1 | GPIO2 | GPIO3 | GPIO4 | GPIO5 | VREF2.
Inductive STSCh := AllStat | SOC | ITMP | VA | VD.
Inductive Group := A | B | C | D.
Inductive DischargeMode := GTMinPlusDelta | MaxOnly | GTMeanPlusDelta.

Definition Mode_value (mode : Mode) : Z :=
  match mode with Fast => 1 | Normal => 2 | Filtered => 3 end.
Definition DCP_value (dcp : DCP) : Z :=
  match dcp with Disabled => 0 | Enabled => 1 end.
Definition CellCh_value (cell : CellCh) : Z :=
  match cell with
  | AllCell => 0 | OneAndSeven => 1 | TwoAndEight => 2 | ThreeAndNine => 3
  | FourAndTen => 4 | FiveAndEleven => 5 | SixAndTwelve => 6
  end.
Definition AuxCh_value (aux : AuxCh) : Z :=
  match aux with
  | AllAux => 0 | GPIO1 => 1 | GPIO2 => 2 | GPIO3 => 3 | GPIO4 => 4
  | GPIO5 => 5 | VREF2 => 6
  end.
Definition STSCh_value (sts : STSCh) : Z :=
  match sts with AllStat => 0 | SOC => 1 | ITMP => 2 | VA => 3 | VD => 4 end.
Definition Group_value (group : Group) : Z :=
  match group with A => 0 | B => 1 | C => 2 | D => 3 end.

(** [LTC6811Command]: four bytes. *)
Definition LTC6811Command := list Z.

(** The two stores [cmd[2] = PEC >> 8; cmd[3] = PEC;] after
    [PEC = PEC15Calc(cmd, 2)], which reads the first two bytes only. *)
Definition append_PEC (cmd : LTC6811Command) : LTC6811Command :=
  let PEC := PEC15Calc cmd 2 in
  <[3%nat := u8 PEC]> (<[2%nat := u8 (Z.shiftr PEC 8)]> cmd).

(** The opcode bytes the constructor stores before any PEC is computed. *)
Definition ADCV_opcode (mode : Mode) (dcp : DCP) (cell : CellCh) : Z * Z :=
  let md_bits := u8 (Z.shiftr (Z.land (Mode_value mode) 0x02) 1) in
  let byte0 := u8 (Z.lor 0x02 md_bits) in
  let md_bits := u8 (Z.shiftl (Z.land (Mode_value mode) 0x01) 7) in
  let byte1 :=
    u8 (Z.lor (Z.lor (Z.lor md_bits 0x60) (Z.shiftl (DCP_value dcp) 4))
              (CellCh_value cell)) in
  (byte0, byte1).

Definition ADAX_opcode (mode : Mode) (aux : AuxCh) : Z * Z :=
  let md_bits := u8 (Z.shiftr (Z.land (Mode_value mode) 0x02) 1) in
  let byte0 := u8 (Z.lor 0x04 md_bits) in
  let md_bits := u8 (Z.shiftl (Z.land (Mode_value mode) 0x01) 7) in
  (byte0, u8 (Z.lor (Z.lor md_bits 0x60) (AuxCh_value aux))).

Definition ADSTAT_opcode (mode : Mode) (sts : STSCh) : Z * Z :=
  let md_bits := u8 (Z.shiftr (Z.land (Mode_value mode) 0x02) 1) in
  let byte0 := u8 (Z.lor 0x04 md_bits) in
  let md_bits := u8 (Z.shiftl (Z.land (Mode_value mode) 0x01) 7) in
  (byte0, u8 (Z.lor (Z.lor md_bits 0x68) (STSCh_value sts))).

(** A command member as the constructor leaves it; bytes 2 and 3 hold
    nothing the PEC computation reads until they are stored. *)
Definition build_command (opcode : Z * Z) : LTC6811Command :=
  append_PEC [fst opcode; snd opcode; 0; 0].

Definition build_ADCV (mode : Mode) (dcp : DCP) (cell : CellCh) : LTC6811Command :=
  build_command (ADCV_opcode mode dcp cell).
Definition build_ADAX (mode : Mode) (aux : AuxCh) : LTC6811Command :=
  build_command (ADAX_opcode mode aux).
Definition build_ADSTAT (mode : Mode) (sts : STSCh) : LTC6811Command :=
  build_command (ADSTAT_opcode mode sts).

(** The layout the command builder is described with: base [0x0260], one
    mode bit at bit 1 of byte 0, the other at bit 7 of byte 1, then the
    discharge permission and the channel selector in byte 1. *)
Definition ADCV_described (hi lo dcp cell : Z) : Z * Z :=
  (Z.lor 0x02 (Z.shiftl hi 1),
   Z.lor (Z.lor (Z.lor 0x60 (Z.shiftl lo 7)) (Z.shiftl dcp 4)) cell).

(** ** Registers and register groups *)

(** Element type of a register's payload: [uint8_t] or [uint16_t]. *)
Inductive Elem := U8 | U16.

Definition sizeof (T : Elem) : nat :=
  match T with U8 => 1%nat | U16 => 2%nat end.

(** [LTC6811Register<T>]: [6 / sizeof(T)] elements and the PEC. *)
Record LTC6811Register := { data : list Z; PEC : Z }.

(** [LTC6811RegisterGroup<T>]: the command and one register per device. *)
Record LTC6811RegisterGroup := {
  command : LTC6811Command;
  register_group : list LTC6811Register
}.

(** Bytes of an object of [width] bytes as the little-endian target stores
    them; this is what [reinterpret_cast<uint8_t*>] walks over. *)
Definition object_bytes (width : nat) (x : Z) : list Z :=
  map (fun k => Z.land (Z.shiftr x (8 * Z.of_nat k)) 0xFF) (seq 0 width).

Definition serialized (T : Elem) (d : list Z) : list Z :=
  flat_map (object_bytes (sizeof T)) d.

(** [PEC15Calc(Register.data)] with the default [size = S * sizeof(T)]. *)
Definition PEC15Calc_data (T : Elem) (d : list Z) : Z :=
  PEC15Calc (serialized T d) (Z.of_nat (length d * sizeof T)).

Definition serialized_register (T : Elem) (r : LTC6811Register) : list Z :=
  serialized T (data r) ++ object_bytes 2 (PEC r).

Definition serialized_group (T : Elem) (rg : LTC6811RegisterGroup) : list Z :=
  command rg ++ flat_map (serialized_register T) (register_group rg).

(** [LTC6811VoltageStatus], with its default member initialisers. *)
Record LTC6811VoltageStatus := {
  sum : Z; min : Z; min_id : Z; max : Z; max_id : Z
}.

Definition LTC6811VoltageStatus_init : LTC6811VoltageStatus :=
  {| sum := 0; min := 65535; min_id := 0; max := 0; max_id := 0 |}.

(** ** The driver object and the bus *)

(** Modelled from the spec: the outcome of a bus transfer, [ok|fail]; the HAL
    header that declares [HAL_StatusTypeDef] is not among the sources, and the
    driver only ever compares a status with [HAL_ERROR]. *)
Inductive HAL_StatusTypeDef := HAL_OK | HAL_ERROR.

Definition is_HAL_ERROR (s : HAL_StatusTypeDef) : bool :=
  match s with HAL_ERROR => true | HAL_OK => false end.

(** What the bus does during one register-group transaction: the status of
    the transmit, the status of the receive, and the register array as it
    reads once [HAL_SPI_Receive] has written
    [kBytesPerRegister * kDaisyChainLength] bytes over it. *)
Record SPI_Reply := {
  transmit_status : HAL_StatusTypeDef;
  receive_status : HAL_StatusTypeDef;
  received : list LTC6811Register
}.

(** What the driver does to its surroundings, in order. *)
Inductive Event :=
| GPIO_WritePin (pin_set : bool)
| SPI_Transmit (bytes : list Z)
| SPI_Receive (size : Z)
| DWT_Delay (us : Z).

(** The members of [class LTC6811] the operations below touch. *)
Record LTC6811 := {
  discharge_mode : DischargeMode;
  slave_cfg_tx : LTC6811RegisterGroup;
  slave_cfg_rx : LTC6811RegisterGroup;
  cell_data : Group -> LTC6811RegisterGroup;
  ADCV : LTC6811Command;
  ADAX : LTC6811Command;
  ADSTAT : LTC6811Command
}.

(** The driver together with what lies outside it: the replies the bus will
    give to the register-group transactions still to come, how many of them
    have been used, the events so far, and [beyond g ic k], the word found
    where [cell_data[g].register_group[ic].data[k]] points when [ic] is not an
    index of the array ([operator[]] checks nothing). *)
Record Machine := {
  driver : LTC6811;
  bus : nat -> SPI_Reply;
  transactions : nat;
  trace : list Event;
  beyond : Group -> Z -> Z -> Z
}.

Definition M (R : Type) : Type := Machine -> R * Machine.

Definition ret {R : Type} (r : R) : M R := fun m => (r, m).

Definition bind {R S : Type} (c : M R) (k : R -> M S) : M S :=
  fun m => let '(r, m') := c m in k r m'.

Declare Scope driver_scope.
Delimit Scope driver_scope with drv.
Notation "x <- c ;; k" := (bind c (fun x => k))
  (at level 100, c at next level, right associativity) : driver_scope.
Notation "c ;; k" := (bind c (fun _ => k))
  (at level 100, right associativity) : driver_scope.
Local Open Scope driver_scope.

Definition this : M LTC6811 := fun m => (driver m, m).

Definition assign (f : LTC6811 -> LTC6811) : M unit :=
  fun m => (tt, {| driver := f (driver m); bus := bus m;
                   transactions := transactions m; trace := trace m;
                   beyond := beyond m |}).

Definition emit (e : Event) : M unit :=
  fun m => (tt, {| driver := driver m; bus := bus m;
                   transactions := transactions m; trace := trace m ++ [e];
                   beyond := beyond m |}).

(** The reply to the next register-group transaction. *)
Definition transact : M SPI_Reply :=
  fun m => (bus m (transactions m),
            {| driver := driver m; bus := bus m;
               transactions := S (transactions m); trace := trace m;
               beyond := beyond m |}).

Definition outside : M (Group -> Z -> Z -> Z) := fun m => (beyond m, m).

Fixpoint times (n : nat) (c : M unit) : M unit :=
  match n with
  | O => ret tt
  | S n' => c ;; times n' c
  end.

Definition set_slave_cfg_tx (rg : LTC6811RegisterGroup) (d : LTC6811) : LTC6811 :=
  {| discharge_mode := discharge_mode d; slave_cfg_tx := rg;
     slave_cfg_rx := slave_cfg_rx d; cell_data := cell_data d;
     ADCV := ADCV d; ADAX := ADAX d; ADSTAT := ADSTAT d |}.

Definition set_slave_cfg_rx (rg : LTC6811RegisterGroup) (d : LTC6811) : LTC6811 :=
  {| discharge_mode := discharge_mode d; slave_cfg_tx := slave_cfg_tx d;
     slave_cfg_rx := rg; cell_data := cell_data d;
     ADCV := ADCV d; ADAX := ADAX d; ADSTAT := ADSTAT d |}.

Definition Group_eqb (g h : Group) : bool :=
  Group_value g =? Group_value h.

Definition set_cell_data (g : Group) (rg : LTC6811RegisterGroup) (d : LTC6811)
  : LTC6811 :=
  {| discharge_mode := discharge_mode d; slave_cfg_tx := slave_cfg_tx d;
     slave_cfg_rx := slave_cfg_rx d;
     cell_data := fun h => if Group_eqb g h then rg else cell_data d h;
     ADCV := ADCV d; ADAX := ADAX d; ADSTAT := ADSTAT d |}.

Definition SetDischargeMode (mode : DischargeMode) : M unit :=
  assign (fun d =>
    {| discharge_mode := mode; slave_cfg_tx := slave_cfg_tx d;
       slave_cfg_rx := slave_cfg_rx d; cell_data := cell_data d;
       ADCV := ADCV d; ADAX := ADAX d; ADSTAT := ADSTAT d |}).

(** ** Wake-up and conversion *)

Definition WakeFromSleep : M unit :=
  times (Z.to_nat kDaisyChainLength)
    (emit (GPIO_WritePin false) ;; emit (DWT_Delay T_WAKE_MAX) ;;
     emit (GPIO_WritePin true) ;; emit (DWT_Delay 10)).

Definition WakeFromIdle : M unit :=
  times (Z.to_nat kDaisyChainLength)
    (emit (GPIO_WritePin false) ;; emit (SPI_Transmit [0xFF]) ;;
     emit (GPIO_WritePin true)).

Definition StartConversion (cmd : LTC6811Command) : M unit :=
  WakeFromIdle ;;
  emit (GPIO_WritePin false) ;;
  emit (SPI_Transmit cmd) ;;
  emit (GPIO_WritePin true) ;;
  emit (DWT_Delay (T_REFUP_MAX + T_CYCLE_FAST_MAX)).

(** ** Register-group transactions *)

(** The [for] loop over the received registers: [true] (the [return 1] of a
    PEC error) at the first register whose stored PEC differs from the one
    computed over its data, [false] (the [return 0]) when the loop ends. *)
Fixpoint check_registers (T : Elem) (regs : list LTC6811Register) : bool :=
  match regs with
  | [] => false
  | Register :: rest =>
      if negb (PEC Register =? PEC15Calc_data T (data Register)) then true
      else check_registers T rest
  end.

(** What [ReadRegisterGroup] returns and leaves in the buffer, given the
    bus's reply.  The receive is not started after a failed transmit. *)
Definition ReadRegisterGroup_reply (T : Elem) (reply : SPI_Reply)
  (rg : LTC6811RegisterGroup) : bool * LTC6811RegisterGroup :=
  if is_HAL_ERROR (transmit_status reply) then (true, rg)
  else
    let rg' := {| command := command rg; register_group := received reply |} in
    if is_HAL_ERROR (receive_status reply) then (true, rg')
    else (check_registers T (register_group rg'), rg').

(** [ReadRegisterGroup(register_group)]: returns [false] (0) on success and
    [true] (1) on failure. *)
Definition ReadRegisterGroup (T : Elem)
  (get : LTC6811 -> LTC6811RegisterGroup)
  (set : LTC6811RegisterGroup -> LTC6811 -> LTC6811) : M bool :=
  WakeFromIdle ;;
  d <- this ;;
  emit (GPIO_WritePin false) ;;
  emit (SPI_Transmit (command (get d))) ;;
  emit (GPIO_WritePin false) ;;
  reply <- transact ;;
  (if is_HAL_ERROR (transmit_status reply) then ret tt
   else emit (SPI_Receive (kBytesPerRegister * kDaisyChainLength))) ;;
  let '(result, rg') := ReadRegisterGroup_reply T reply (get d) in
  assign (set rg') ;;
  ret result.

(** [WriteRegisterGroup(register_group)]: the transmit status as a [bool]. *)
Definition WriteRegisterGroup (T : Elem) (get : LTC6811 -> LTC6811RegisterGroup)
  : M bool :=
  WakeFromIdle ;;
  d <- this ;;
  emit (GPIO_WritePin false) ;;
  emit (SPI_Transmit (serialized_group T (get d))) ;;
  reply <- transact ;;
  emit (GPIO_WritePin true) ;;
  ret (is_HAL_ERROR (transmit_status reply)).

Definition ReadVoltageRegisterGroup (group : Group) : M bool :=
  ReadRegisterGroup U16 (fun d => cell_data d group) (set_cell_data group).

Definition ReadConfigRegisterGroup : M bool :=
  ReadRegisterGroup U8 slave_cfg_rx set_slave_cfg_rx.

Definition WriteConfigRegisterGroup : M bool :=
  WriteRegisterGroup U8 slave_cfg_tx.

(** ** Voltage status *)

(** The body of the innermost loop of [GetVoltageStatus] together with its
    [++count]. *)
Definition scan_voltage (st : LTC6811VoltageStatus * Z) (voltage : Z)
  : LTC6811VoltageStatus * Z :=
  let '(status, count) := st in
  let total := usize (sum status + voltage) in
  let status' :=
    if voltage <? min status then
      {| sum := total; min := voltage; min_id := count;
         max := max status; max_id := max_id status |}
    else if voltage >? max status then
      {| sum := total; min := min status; min_id := min_id status;
         max := voltage; max_id := count |}
    else
      {| sum := total; min := min status; min_id := min_id status;
         max := max status; max_id := max_id status |} in
  (status', usize (count + 1)).

Definition scan_register (st : LTC6811VoltageStatus * Z) (Register : LTC6811Register)
  : LTC6811VoltageStatus * Z :=
  fold_left scan_voltage (data Register) st.

Definition scan_group (st : LTC6811VoltageStatus * Z) (rg : LTC6811RegisterGroup)
  : LTC6811VoltageStatus * Z :=
  fold_left scan_register (register_group rg) st.

(** [for (const auto& register_group : cell_data)]: the four groups in array
    order. *)
Definition groups_of (cd : Group -> LTC6811RegisterGroup)
  : list LTC6811RegisterGroup :=
  map cd [A; B; C; D].

Definition scan_cell_data (cd : Group -> LTC6811RegisterGroup)
  : LTC6811VoltageStatus :=
  fst (fold_left scan_group (groups_of cd) (LTC6811VoltageStatus_init, 0)).

(** The loop [for (group = A; group <= D; ++group) if (!Read...) return
    std::nullopt;]: [true] when it left through the [return]. *)
Fixpoint read_voltage_groups (groups : list Group) : M bool :=
  match groups with
  | [] => ret false
  | group :: rest =>
      result <- ReadVoltageRegisterGroup group ;;
      if negb result then ret true else read_voltage_groups rest
  end.

Definition GetVoltageStatus : M (option LTC6811VoltageStatus) :=
  d <- this ;;
  StartConversion (ADCV d) ;;
  returned <- read_voltage_groups [A; B; C; D] ;;
  if returned then ret None
  else
    d <- this ;;
    ret (Some (scan_cell_data (cell_data d))).

(** The readings in the order the three nested loops visit them, and the
    cell each one sits in: (group, device, position in the register). *)
Definition readings (cd : Group -> LTC6811RegisterGroup) : list Z :=
  flat_map (fun rg => flat_map data (register_group rg)) (groups_of cd).

Definition cell (cd : Group -> LTC6811RegisterGroup) (g : Group) (ic k : nat) : Z :=
  match register_group (cd g) !! ic with
  | Some Register => nth k (data Register) 0
  | None => 0
  end.

(** Twelve devices, three readings (or six bytes) per register. *)
Definition well_formed_group (per_register : nat) (rg : LTC6811RegisterGroup)
  : Prop :=
  length (register_group rg) = 12%nat /\
  Forall (fun r => length (data r) = per_register) (register_group rg).

Definition well_formed_cell_data (cd : Group -> LTC6811RegisterGroup) : Prop :=
  forall g, well_formed_group 3 (cd g).

(** ** Discharge configuration *)

(** The innermost loop body of the two threshold policies: mark the current
    cell when its voltage is above the threshold, then [++current_cell]. *)
Definition mark_voltage (threshold : Z) (st : Z * Z) (voltage : Z) : Z * Z :=
  let '(DCCx, current_cell) := st in
  ((if voltage >? threshold
    then u16 (Z.lor DCCx (Z.shiftl 1 current_cell)) else DCCx),
   u8 (current_cell + 1)).

(** [register_group.register_group[ic].data]. *)
Definition data_at (far : Group -> Z -> Z -> Z)
  (cd : Group -> LTC6811RegisterGroup) (g : Group) (ic : Z) : list Z :=
  match register_group (cd g) !! Z.to_nat ic with
  | Some Register => data Register
  | None => [far g ic 0; far g ic 1; far g ic 2]
  end.

(** [current_ic] and, for the record, every value it has indexed a
    register array with. *)
Record ic_cursor := { current_ic : Z; indexed : list Z }.

(** One pass of the loop over the four voltage register groups: the three
    voltages of [register_group[current_ic--]]. *)
Definition mark_group (threshold : Z) (far : Group -> Z -> Z -> Z)
  (cd : Group -> LTC6811RegisterGroup) (st : (Z * Z) * ic_cursor) (g : Group)
  : (Z * Z) * ic_cursor :=
  let '(cells, cur) := st in
  let ic := current_ic cur in
  let cur' := {| current_ic := u8 (ic - 1); indexed := indexed cur ++ [ic] |} in
  (fold_left (mark_voltage threshold) (data_at far cd g ic) cells, cur').

(** [DCCx] for one configuration register: [DCCx = 0; current_cell = 0;]
    and the loop over the groups. *)
Definition mark_device (threshold : Z) (far : Group -> Z -> Z -> Z)
  (cd : Group -> LTC6811RegisterGroup) (cur : ic_cursor) : Z * ic_cursor :=
  let '((DCCx, _), cur') :=
    fold_left (mark_group threshold far cd) [A; B; C; D] ((0, 0), cur) in
  (DCCx, cur').

(** [data[4] |= DCCx & 0xFF; data[5] |= DCCx >> 8 & 0xF; PEC = ...] *)
Definition or_DCCx (DCCx : Z) (cfg_register : LTC6811Register) : LTC6811Register :=
  let d := alter (fun b => u8 (Z.lor b (Z.land DCCx 0xFF))) 4%nat (data cfg_register) in
  let d := alter (fun b => u8 (Z.lor b (Z.land (Z.shiftr DCCx 8) 0xF))) 5%nat d in
  {| data := d; PEC := PEC15Calc_data U8 d |}.

(** [data[4] = DCCx & 0xFF; data[5] = DCCx >> 8 & 0xF; PEC = ...] *)
Definition store_DCCx (DCCx : Z) (cfg_register : LTC6811Register) : LTC6811Register :=
  let d := <[4%nat := u8 (Z.land DCCx 0xFF)]> (data cfg_register) in
  let d := <[5%nat := u8 (Z.land (Z.shiftr DCCx 8) 0xF)]> d in
  {| data := d; PEC := PEC15Calc_data U8 d |}.

(** The loop over the configuration registers shared by [GTMinPlusDelta]
    and [GTMeanPlusDelta]. *)
Fixpoint stage_threshold (threshold : Z) (far : Group -> Z -> Z -> Z)
  (cd : Group -> LTC6811RegisterGroup) (regs : list LTC6811Register)
  (cur : ic_cursor) : list LTC6811Register * ic_cursor :=
  match regs with
  | [] => ([], cur)
  | cfg_register :: rest =>
      let '(DCCx, cur') := mark_device threshold far cd cur in
      let '(rest', cur'') := stage_threshold threshold far cd rest cur' in
      (or_DCCx DCCx cfg_register :: rest', cur'')
  end.

(** The [MaxOnly] case. *)
Definition stage_max_only (voltage_status : LTC6811VoltageStatus)
  (regs : list LTC6811Register) : list LTC6811Register :=
  if max voltage_status - min voltage_status >? kDelta then
    let ic := u8 (usize (usize (max_id voltage_status / 3) mod 12)) in
    let DCCx := u16 (Z.lor 0 (Z.shiftl 1 (usize (max_id voltage_status mod 11)))) in
    alter (store_DCCx DCCx) (Z.to_nat ic) regs
  else regs.

(** The [switch] of [BuildDischargeConfig]: the staged configuration
    registers and the cursor the register walk ended with. *)
Definition stage (mode : DischargeMode) (voltage_status : LTC6811VoltageStatus)
  (far : Group -> Z -> Z -> Z) (cd : Group -> LTC6811RegisterGroup)
  (regs : list LTC6811Register) : list LTC6811Register * ic_cursor :=
  let cur := {| current_ic := u8 (kDaisyChainLength - 1); indexed := [] |} in
  match mode with
  | GTMinPlusDelta =>
      stage_threshold (min voltage_status + kDelta) far cd regs cur
  | MaxOnly => (stage_max_only voltage_status regs, cur)
  | GTMeanPlusDelta =>
      let average_voltage := usize (sum voltage_status / (12 * kDaisyChainLength)) in
      stage_threshold (usize (average_voltage + kDelta)) far cd regs cur
  end.

Definition BuildDischargeConfig (voltage_status : LTC6811VoltageStatus) : M unit :=
  d <- this ;;
  far <- outside ;;
  let regs :=
    fst (stage (discharge_mode d) voltage_status far (cell_data d)
           (register_group (slave_cfg_tx d))) in
  assign (set_slave_cfg_tx
            {| command := command (slave_cfg_tx d); register_group := regs |}) ;;
  WriteConfigRegisterGroup ;;
  emit (DWT_Delay 500) ;;
  ReadConfigRegisterGroup ;;
  ret tt.


(** The same three loops run over a plain sequence of readings. *)
Definition scan_readings (l : list Z) : LTC6811VoltageStatus * Z :=
  fold_left scan_voltage l (LTC6811VoltageStatus_init, 0).

(** Position of a group in [cell_data]. *)
Definition Group_index (g : Group) : nat := Z.to_nat (Group_value g).

(** The cell identity as the data model describes it: group outermost, then
    position in the register, then device. *)
Definition cell_id_described (g : Group) (position device : nat) : Z :=
  Z.of_nat (Group_index g * (3 * 12) + position * 12 + device).

(** [current_ic--] used as an index: the value indexed with, then the
    decrement. *)
Definition step_back (cur : ic_cursor) : ic_cursor :=
  {| current_ic := u8 (current_ic cur - 1);
     indexed := indexed cur ++ [current_ic cur] |}.

(** The cursor after the four register groups of one configuration
    register. *)
Definition step_back_device (cur : ic_cursor) : ic_cursor :=
  step_back (step_back (step_back (step_back cur))).

(** Group holding cell [c] of a device, three cells to a group. *)
Definition Group_of_cell (c : nat) : Group :=
  match (c / 3)%nat with
  | 0%nat => A
  | 1%nat => B
  | 2%nat => C
  | _ => D
  end.

(** The above-min-plus-delta rule as the balancing policy describes it: bit
    [c] of device [device] looks at that device's own cell [c], the device
    sitting at the chain-reversed place [11 - device] of every group. *)
Definition discharge_bit_described (cd : Group -> LTC6811RegisterGroup)
  (minimum : Z) (device c : nat) : bool :=
  cell cd (Group_of_cell c) (11 - device) (c mod 3) >? minimum + kDelta.

(** Whether a read answered with [reply] returns 1: the buffer it is read
    into plays no part. *)
Definition reply_fails (T : Elem) (reply : SPI_Reply) : bool :=
  is_HAL_ERROR (transmit_status reply)
  || is_HAL_ERROR (receive_status reply)
  || check_registers T (received reply).

(** The cursor a balancing call starts from:
    [current_ic{ kDaisyChainLength - 1 }]. *)
Definition first_cursor : ic_cursor :=
  {| current_ic := u8 (kDaisyChainLength - 1); indexed := [] |}.

(** The voltages the pass for one configuration register visits, in the
    order it visits them: three from each of the four groups, each group read
    at the value [current_ic] has when its turn comes. *)
Definition device_voltages (far : Group -> Z -> Z -> Z)
  (cd : Group -> LTC6811RegisterGroup) (cur : ic_cursor) : list Z :=
  data_at far cd A (current_ic cur)
  ++ data_at far cd B (current_ic (step_back cur))
  ++ data_at far cd C (current_ic (step_back (step_back cur)))
  ++ data_at far cd D (current_ic (step_back (step_back (step_back cur)))).

(** The voltages visited for configuration register [device] of a call. *)
Definition walked_voltages (far : Group -> Z -> Z -> Z)
  (cd : Group -> LTC6811RegisterGroup) (device : nat) : list Z :=
  device_voltages far cd (Nat.iter device step_back_device first_cursor).
(** ** The constructor and concrete machines *)

(** The fixed read command of each cell-voltage register group. *)
Definition cell_data_command (g : Group) : LTC6811Command :=
  match g with
  | A => [0; 4; 7; 194]
  | B => [0; 6; 154; 148]
  | C => [0; 8; 94; 82]
  | D => [0; 10; 195; 4]
  end.

(** The object once the constructor has stored the three conversion
    commands and filled the configuration registers; buffers the constructor
    does not write read as zero. *)
Definition LTC6811_new (mode : Mode) (dcp : DCP) (cell_ch : CellCh) (aux : AuxCh)
  (sts : STSCh) : LTC6811 :=
  {| discharge_mode := GTMinPlusDelta;
     slave_cfg_tx :=
       {| command := [0x00; 0x01; 0x3D; 0x6E];
          register_group := repeat {| data := [0xFE; 0; 0; 0; 0; 0]; PEC := 0 |} 12 |};
     slave_cfg_rx :=
       {| command := [0x00; 0x02; 0x2B; 0x0A];
          register_group := repeat {| data := [0; 0; 0; 0; 0; 0]; PEC := 0 |} 12 |};
     cell_data := fun g =>
       {| command := cell_data_command g;
          register_group := repeat {| data := [0; 0; 0]; PEC := 0 |} 12 |};
     ADCV := build_ADCV mode dcp cell_ch;
     ADAX := build_ADAX mode aux;
     ADSTAT := build_ADSTAT mode sts |}.

(** A register whose PEC is the PEC of its data. *)
Definition sealed (T : Elem) (d : list Z) : LTC6811Register :=
  {| data := d; PEC := PEC15Calc_data T d |}.

(** A freshly constructed driver on a given bus. *)
Definition machine_on (replies : nat -> SPI_Reply) : Machine :=
  {| driver := LTC6811_new Normal Disabled AllCell AllAux AllStat;
     bus := replies; transactions := 0; trace := [];
     beyond := fun _ _ _ => 0 |}.

(** A chain that answers every read with twelve intact registers, each cell
    at 3.0 V. *)
Definition reply_intact : SPI_Reply :=
  {| transmit_status := HAL_OK; receive_status := HAL_OK;
     received := repeat (sealed U16 [30000; 30000; 30000]) 12 |}.

(** A bus on which every transfer fails. *)
Definition reply_dead : SPI_Reply :=
  {| transmit_status := HAL_ERROR; receive_status := HAL_ERROR; received := [] |}.

(** Cell-voltage buffers holding [v g ic k] in register [ic] of group [g] at
    position [k], every register with a matching PEC. *)
Definition cell_data_of (v : Group -> nat -> nat -> Z) (g : Group)
  : LTC6811RegisterGroup :=
  {| command := cell_data_command g;
     register_group :=
       map (fun ic => sealed U16 [v g ic 0%nat; v g ic 1%nat; v g ic 2%nat])
           (seq 0 12) |}.

(** Every cell at 3.0 V except one, which reads [v]. *)
Definition all_but_one (g : Group) (ic k : nat) (v : Z)
  : Group -> LTC6811RegisterGroup :=
  cell_data_of (fun g' ic' k' =>
    if Group_eqb g g' && Nat.eqb ic ic' && Nat.eqb k k' then v else 30000).

(** The configuration registers as the constructor fills them. *)
Definition fresh_cfg : list LTC6811Register :=
  register_group (slave_cfg_tx (LTC6811_new Normal Disabled AllCell AllAux AllStat)).

(** A freshly constructed driver switched to a given discharge mode. *)
Definition machine_in (mode : DischargeMode) : Machine :=
  snd (SetDischargeMode mode (machine_on (fun _ => reply_intact))).

(** A status whose extremes are 1000 apart, the maximum at identity 5. *)
Definition status_spread : LTC6811VoltageStatus :=
  {| sum := 4321000; min := 30000; min_id := 0; max := 31000; max_id := 5 |}.

(** The same spread with the maximum at identity 3. *)
Definition status_spread_3 : LTC6811VoltageStatus :=
  {| sum := 4321000; min := 30000; min_id := 0; max := 31000; max_id := 3 |}.

(** A max-only driver after one balancing call that staged bit 3 of
    device 1. *)
Definition machine_balanced_once : Machine :=
  snd (BuildDischargeConfig status_spread_3 (machine_in MaxOnly)).

(** A pack with every cell at 3.1 V except the last cell scanned on the
    first device of group D, which is at 3.0 V. *)
Definition cell_data_charged : Group -> LTC6811RegisterGroup :=
  cell_data_of (fun g ic k =>
    if Group_eqb D g && Nat.eqb 0 ic && Nat.eqb 2 k then 30000 else 31000).

(** A freshly constructed driver holding those readings. *)
Definition machine_charged : Machine :=
  {| driver :=
       {| discharge_mode := GTMinPlusDelta;
          slave_cfg_tx := {| command := [0x00; 0x01; 0x3D; 0x6E];
                             register_group := fresh_cfg |};
          slave_cfg_rx := {| command := [0x00; 0x02; 0x2B; 0x0A];
                             register_group := fresh_cfg |};
          cell_data := cell_data_charged;
          ADCV := build_ADCV Normal Disabled AllCell;
          ADAX := build_ADAX Normal AllAux;
          ADSTAT := build_ADSTAT Normal AllStat |};
     bus := fun _ => reply_intact; transactions := 0; trace := [];
     beyond := fun _ _ _ => 0 |}.

(** ** The remaining operations of the driver *)

(** [ReadAuxRegisterGroup] reads into [cell_data[group]], with that
    group's own command. *)
Definition ReadAuxRegisterGroup (group : Group) : M bool :=
  ReadRegisterGroup U16 (fun d => cell_data d group) (set_cell_data group).

(** The command literals of [ClearVoltageRegisters] and
    [ClearAuxRegisters]. *)
Definition ClearVoltageRegisters_command : LTC6811Command := [7; 17; 201; 192].
Definition ClearAuxRegisters_command : LTC6811Command := [7; 18; 223; 164].

Definition ClearVoltageRegisters : M unit :=
  WakeFromIdle ;;
  emit (GPIO_WritePin false) ;;
  emit (SPI_Transmit ClearVoltageRegisters_command) ;;
  emit (GPIO_WritePin true).

Definition ClearAuxRegisters : M unit :=
  WakeFromIdle ;;
  emit (GPIO_WritePin false) ;;
  emit (SPI_Transmit ClearAuxRegisters_command) ;;
  emit (GPIO_WritePin true).

(** The command literals of the members [temp_data] and
    [status_registers]. *)
Definition temp_data_commands : list LTC6811Command :=
  [[0; 12; 239; 204]; [0; 14; 114; 154]].
Definition status_registers_commands : list LTC6811Command :=
  [[0x00; 0x10; 0xED; 0x72]; [0x00; 0x12; 0x70; 0x24]].

(** Every command the sources write out as a literal, PEC included. *)
Definition command_literals : list LTC6811Command :=
  [ [0x00; 0x01; 0x3D; 0x6E]; [0x00; 0x02; 0x2B; 0x0A] ]
  ++ map cell_data_command [A; B; C; D]
  ++ temp_data_commands ++ status_registers_commands
  ++ [ClearVoltageRegisters_command; ClearAuxRegisters_command].

(** The events of one [WakeFromIdle] and of one [WakeFromSleep]. *)
Definition idle_pulse : list Event :=
  [GPIO_WritePin false; SPI_Transmit [0xFF]; GPIO_WritePin true].
Definition sleep_pulse : list Event :=
  [GPIO_WritePin false; DWT_Delay T_WAKE_MAX; GPIO_WritePin true; DWT_Delay 10].

(** Microseconds spent in the delays of a trace. *)
Definition delay_of (e : Event) : Z :=
  match e with DWT_Delay us => us | _ => 0 end.
Definition total_delay (events : list Event) : Z :=
  fold_right Z.add 0 (map delay_of events).

(** One bit of one payload byte inverted. *)
Definition flip_bit (k : nat) (j : Z) (bytes : list Z) : list Z :=
  alter (fun b => Z.lxor b (2 ^ j)) k bytes.

(** ** Temperature status *)

Module Temperature.

(** [LTC6811TempStatus], with its default member initialisers. *)
Record LTC6811TempStatus := {
  min : Z; min_id : Z; max : Z; max_id : Z
}.

Definition LTC6811TempStatus_init : LTC6811TempStatus :=
  {| min := 32767; min_id := 0; max := -32768; max_id := 0 |}.

(** Conversion of an integer to [int16_t]. *)
Definition i16 (x : Z) : Z :=
  if u16 x <? 32768 then u16 x else u16 x - 65536.

Section Scan.
(** The value of the [steinharthart] lambda, an [int16_t], on an
    [int16_t] argument.  Its body is single-precision floating point and is
    not modelled; everything below holds whatever it returns. *)
Variable steinharthart : Z -> Z.

(** The body of the innermost loop of [GetTemperatureStatus].  The loop
    variable is a copy of a [uint16_t] element of [cell_data]: the converted
    temperature is stored back into it, and the comparisons promote it,
    unsigned, to [int]. *)
Definition scan_temperature (st : LTC6811TempStatus * Z) (reading : Z)
  : LTC6811TempStatus * Z :=
  let '(status, count) := st in
  let temperature := u16 (steinharthart (i16 reading)) in
  let status' :=
    if temperature <? min status then
      {| min := i16 temperature; min_id := count;
         max := max status; max_id := max_id status |}
    else if temperature >? max status then
      {| min := min status; min_id := min_id status;
         max := i16 temperature; max_id := count |}
    else status in
  (status', usize (count + 1)).

Definition scan_cell_data (cd : Group -> LTC6811RegisterGroup)
  : LTC6811TempStatus :=
  fst (fold_left
         (fun st rg =>
            fold_left (fun st Register => fold_left scan_temperature (data Register) st)
              (register_group rg) st)
         (groups_of cd) (LTC6811TempStatus_init, 0)).

(** The loop [for (group = A; group <= D; ++group) if (!ReadAux...) return
    std::nullopt;]. *)
Fixpoint read_aux_groups (groups : list Group) : M bool :=
  match groups with
  | [] => ret false
  | group :: rest =>
      result <- ReadAuxRegisterGroup group ;;
      if negb result then ret true else read_aux_groups rest
  end.

Definition GetTemperatureStatus : M (option LTC6811TempStatus) :=
  d <- this ;;
  StartConversion (ADAX d) ;;
  returned <- read_aux_groups [A; B; C; D] ;;
  if returned then ret None
  else
    d <- this ;;
    ret (Some (scan_cell_data (cell_data d))).
End Scan.

End Temperature.

(** ** Further concrete machines *)

(** Twelve registers of cells at 3.0 V, the last of which arrives with the
    lowest bit of its first reading inverted and the PEC it was sent with. *)
Definition reply_one_bit_off : SPI_Reply :=
  {| transmit_status := HAL_OK; receive_status := HAL_OK;
     received :=
       repeat (sealed U16 [30000; 30000; 30000]) 11
       ++ [ {| data := [30001; 30000; 30000];
               PEC := PEC15Calc_data U16 [30000; 30000; 30000] |} ] |}.

(** ** Describing what an operation leaves behind *)

(** The machine [m] with [events] added to what it has done so far and
    nothing else changed. *)
Definition logged (m : Machine) (events : list Event) : Machine :=
  {| driver := driver m; bus := bus m; transactions := transactions m;
     trace := trace m ++ events; beyond := beyond m |}.

(** [c] does nothing but produce [events]. *)
Definition appends (c : M unit) (events : list Event) : Prop :=
  forall m, c m = (tt, logged m events).

(** Whether an event raises the chip-select line. *)
Definition raises_select (e : Event) : bool :=
  match e with GPIO_WritePin true => true | _ => false end.

(** * Properties *)

(** ** Machine integers *)

Lemma wrap_small bits x : 0 <= x < 2 ^ bits -> wrap bits x = x.
Proof. intros H. unfold wrap. apply Z.mod_small. exact H. Qed.

Lemma wrap_range bits x : 0 <= bits -> 0 <= wrap bits x < 2 ^ bits.
Proof. intros H. unfold wrap. apply Z.mod_pos_bound. apply Z.pow_pos_nonneg; lia. Qed.

Lemma wrap_testbit bits x k :
  0 <= k < bits -> Z.testbit (wrap bits x) k = Z.testbit x k.
Proof. intros H. unfold wrap. apply Z.mod_pow2_bits_low. lia. Qed.

Lemma land_255_range x : 0 <= Z.land x 0xFF < 256.
Proof.
  change 0xFF with (Z.ones 8). rewrite Z.land_ones by lia.
  change (2 ^ 8) with 256. apply Z.mod_pos_bound. lia.
Qed.

(** ** PEC15 *)

Lemma PEC15Calc_body_fold data i PEC :
  PEC15Calc_body data i PEC = (u8 (i + 1), pec15_fold_step PEC (byte_at data i)).
Proof.
  unfold PEC15Calc_body, pec15_fold_step.
  unfold u16 at 2. rewrite wrap_small; [reflexivity|].
  pose proof (land_255_range (Z.lxor (Z.shiftr PEC 7) (byte_at data i))).
  change (2 ^ 16) with 65536. lia.
Qed.

Lemma byte_at_middle (pre : list Z) b rest :
  byte_at (pre ++ b :: rest) (Z.of_nat (length pre)) = b.
Proof.
  unfold byte_at. rewrite Nat2Z.id.
  rewrite app_nth2 by lia. rewrite Nat.sub_diag. reflexivity.
Qed.

(** The loop, entered at position [length pre] with accumulator [acc], folds
    the remaining bytes and leaves after [length rest] passes. *)
Lemma PEC15Calc_loop_fold rest : forall (pre : list Z) acc,
  (length pre + length rest <= 255)%nat ->
  PEC15Calc_loop (S (length rest)) (pre ++ rest)
    (Z.of_nat (length (pre ++ rest))) (Z.of_nat (length pre)) acc
  = Some (u16 (Z.shiftl (fold_left pec15_fold_step rest acc) 1)).
Proof.
  induction rest as [|b rest IH]; intros pre acc Hlen.
  - rewrite app_nil_r. cbn [PEC15Calc_loop length fold_left].
    rewrite Z.ltb_irrefl. reflexivity.
  - cbn [length] in Hlen.
    change (length (b :: rest)) with (S (length rest)).
    cbn [PEC15Calc_loop].
    replace (Z.of_nat (length pre) <? Z.of_nat (length (pre ++ b :: rest)))
      with true
      by (symmetry; apply Z.ltb_lt; rewrite length_app; cbn [length]; lia).
    rewrite PEC15Calc_body_fold, byte_at_middle.
    unfold u8. rewrite wrap_small by (change (2 ^ 8) with 256; lia).
    specialize (IH (pre ++ [b]) (pec15_fold_step acc b)).
    rewrite <- app_assoc in IH. cbn [app] in IH.
    rewrite length_app in IH. cbn [length] in IH.
    replace (Z.of_nat (length pre) + 1) with (Z.of_nat (length pre + 1)) by lia.
    cbn [fold_left]. apply IH. lia.
Qed.

(** More fuel never changes an answer already given. *)
Lemma PEC15Calc_loop_more fuel : forall data size i PEC r extra,
  PEC15Calc_loop fuel data size i PEC = Some r ->
  PEC15Calc_loop (fuel + extra) data size i PEC = Some r.
Proof.
  induction fuel as [|fuel IH]; intros data size i PEC r extra H.
  - discriminate H.
  - cbn [PEC15Calc_loop Nat.add] in *.
    destruct (i <? size); [|exact H].
    destruct (PEC15Calc_body data i PEC) as [i' PEC']. apply IH. exact H.
Qed.

Lemma PEC15Calc_loop_agree fuel1 fuel2 data size i PEC r1 r2 :
  PEC15Calc_loop fuel1 data size i PEC = Some r1 ->
  PEC15Calc_loop fuel2 data size i PEC = Some r2 ->
  r1 = r2.
Proof.
  intros H1 H2.
  apply PEC15Calc_loop_more with (extra := fuel2) in H1.
  apply PEC15Calc_loop_more with (extra := fuel1) in H2.
  rewrite Nat.add_comm in H2. congruence.
Qed.

(** With 256 bytes or more the [uint8_t] counter never reaches [size]. *)
Lemma PEC15Calc_loop_spins fuel : forall data size i PEC,
  256 <= size -> 0 <= i < 256 ->
  PEC15Calc_loop fuel data size i PEC = None.
Proof.
  induction fuel as [|fuel IH]; intros data size i PEC Hsize Hi.
  - reflexivity.
  - cbn [PEC15Calc_loop].
    replace (i <? size) with true by (symmetry; apply Z.ltb_lt; lia).
    rewrite PEC15Calc_body_fold. apply IH; [exact Hsize|].
    unfold u8. pose proof (wrap_range 8 (i + 1)).
    change (2 ^ 8) with 256 in *. lia.
Qed.

Lemma PEC15Calc_run_contract (bytes : list Z) :
  (length bytes <= 255)%nat ->
  PEC15Calc_run (S (length bytes)) bytes (Z.of_nat (length bytes))
  = Some (pec15_contract bytes).
Proof.
  intros H. unfold PEC15Calc_run, pec15_contract.
  apply (PEC15Calc_loop_fold bytes [] 16). cbn [length]. lia.
Qed.

Lemma PEC15Calc_is_contract (bytes : list Z) :
  (length bytes <= 255)%nat ->
  PEC15Calc bytes (Z.of_nat (length bytes)) = pec15_contract bytes.
Proof.
  intros H. unfold PEC15Calc.
  pose proof (PEC15Calc_run_contract bytes H) as Hrun.
  unfold PEC15Calc_run in *.
  apply PEC15Calc_loop_more with (extra := (256 - length bytes)%nat) in Hrun.
  replace (S (length bytes) + (256 - length bytes))%nat with 257%nat in Hrun by lia.
  rewrite Hrun. reflexivity.
Qed.

(** The PECs of the fixed read and write commands of the header. *)
Example pec_wrcfga : PEC15Calc [0x00; 0x01] 2 = 0x3D6E.
Proof. vm_compute. reflexivity. Qed.
Example pec_rdcfga : PEC15Calc [0x00; 0x02] 2 = 0x2B0A.
Proof. vm_compute. reflexivity. Qed.
Example pec_rdcva : PEC15Calc [0; 4] 2 = 7 * 256 + 194.
Proof. vm_compute. reflexivity. Qed.

(** C8 (as amended): for every byte sequence of at most 255 bytes,
    [PEC15Calc] returns, whatever fuel the run is given beyond its length it
    returns the same value, and that value is the one the contract's
    algorithm computes: accumulator 16, one table step per byte, final left
    shift by one bit. *)
Theorem PEC15Calc_refines_contract (bytes : list Z) :
  (length bytes <= 255)%nat ->
  PEC15Calc_run (S (length bytes)) bytes (Z.of_nat (length bytes))
    = Some (pec15_contract bytes)
  /\ (forall fuel r,
        PEC15Calc_run fuel bytes (Z.of_nat (length bytes)) = Some r ->
        r = pec15_contract bytes)
  /\ PEC15Calc bytes (Z.of_nat (length bytes)) = pec15_contract bytes.
Proof.
  intros H. split; [|split].
  - apply PEC15Calc_run_contract, H.
  - intros fuel r Hr. symmetry.
    exact (PEC15Calc_loop_agree _ _ _ _ _ _ _ _ (PEC15Calc_run_contract bytes H) Hr).
  - apply PEC15Calc_is_contract, H.
Qed.

Lemma PEC15Calc_refines_contract_witness :
  (length [0x00; 0x01] <= 255)%nat /\
  PEC15Calc [0x00; 0x01] 2 = pec15_contract [0x00; 0x01].
Proof.
  split; [cbn; lia|].
  apply (PEC15Calc_refines_contract [0x00; 0x01]). cbn; lia.
Defined.

(** C8 (as stated) fails: on a sequence of 256 bytes the loop counter wraps
    from 255 to 0 and the function never returns. *)
Lemma PEC15Calc_256_bytes_never_returns :
  ~ (exists fuel r,
       PEC15Calc_run fuel (repeat 0 256) (Z.of_nat (length (repeat 0 256))) = Some r).
Proof.
  intros [fuel [r H]]. unfold PEC15Calc_run in H.
  rewrite PEC15Calc_loop_spins in H; [discriminate H| |lia].
  rewrite repeat_length. lia.
Qed.

(** ** Command builder *)

(** C7 (as amended): for every mode, discharge permission and cell-channel
    selector the built command is base [0x02 0x60] with mode bit 1 at bit 0
    of byte 0 (bit 1 of that byte belongs to the base and is always set) and
    mode bit 0 at bit 7 of byte 1, the permission shifted left by 4 and the
    selector OR'd into byte 1, followed by the PEC of those two bytes, high
    byte first. *)
Theorem build_ADCV_layout (mode : Mode) (dcp : DCP) (cell_ch : CellCh) :
  let md1 := Z.b2z (Z.testbit (Mode_value mode) 1) in
  let md0 := Z.b2z (Z.testbit (Mode_value mode) 0) in
  let byte0 := Z.lor 0x02 md1 in
  let byte1 :=
    Z.lor (Z.lor (Z.lor 0x60 (Z.shiftl md0 7)) (Z.shiftl (DCP_value dcp) 4))
          (CellCh_value cell_ch) in
  let pec := pec15_contract [byte0; byte1] in
  build_ADCV mode dcp cell_ch = [byte0; byte1; Z.shiftr pec 8; Z.land pec 0xFF]
  /\ Z.testbit byte0 0 = Z.testbit (Mode_value mode) 1
  /\ Z.testbit byte0 1 = true
  /\ Z.testbit byte1 7 = Z.testbit (Mode_value mode) 0.
Proof.
  destruct mode, dcp, cell_ch; vm_compute; repeat split; reflexivity.
Qed.

(** C7 (as stated) fails: in mode [Normal] byte 0 of the command is [0x03],
    which base [0x02] with a bit folded into bit 1 can never be. *)
Lemma build_ADCV_Normal_not_as_described :
  ~ (exists hi lo,
       (hi = 0 \/ hi = 1) /\ (lo = 0 \/ lo = 1) /\
       (nth 0 (build_ADCV Normal Disabled AllCell) 0,
        nth 1 (build_ADCV Normal Disabled AllCell) 0)
       = ADCV_described hi lo (DCP_value Disabled) (CellCh_value AllCell)).
Proof.
  intros [hi [lo [Hhi [Hlo H]]]].
  destruct Hhi as [-> | ->]; destruct Hlo as [-> | ->];
    vm_compute in H; discriminate H.
Qed.

(** ** Operations that only add events *)

(** [c] leaves the driver, the bus and the memory outside as they were. *)
Definition quiet {R : Type} (c : M R) : Prop :=
  forall m,
    driver (snd (c m)) = driver m /\ bus (snd (c m)) = bus m /\
    transactions (snd (c m)) = transactions m /\
    beyond (snd (c m)) = beyond m.

Lemma quiet_ret {R : Type} (r : R) : quiet (ret r).
Proof. intros m. cbn. auto. Qed.

Lemma quiet_emit e : quiet (emit e).
Proof. intros m. cbn. auto. Qed.

Lemma quiet_bind {R S : Type} (c : M R) (k : R -> M S) :
  quiet c -> (forall r, quiet (k r)) -> quiet (bind c k).
Proof.
  intros Hc Hk m. unfold bind.
  specialize (Hc m). destruct (c m) as [r m1]. cbn [snd] in Hc.
  specialize (Hk r m1). destruct Hc as (<- & <- & <- & <-). exact Hk.
Qed.

Lemma quiet_times n c : quiet c -> quiet (times n c).
Proof.
  intros Hc. induction n as [|n IH]; cbn [times].
  - apply quiet_ret.
  - apply quiet_bind; [exact Hc|intros _; exact IH].
Qed.

Lemma run_bind {R S : Type} (c : M R) (k : R -> M S) m :
  bind c k m = k (fst (c m)) (snd (c m)).
Proof. unfold bind. destruct (c m) as [r m1]. reflexivity. Qed.

Lemma ret_state {R : Type} (r : R) m : snd (ret r m) = m.
Proof. reflexivity. Qed.

Lemma emit_driver e m : driver (snd (emit e m)) = driver m.
Proof. reflexivity. Qed.

Lemma assign_driver f m : driver (snd (assign f m)) = f (driver m).
Proof. reflexivity. Qed.

Create HintDb quiet.
#[local] Hint Resolve quiet_ret quiet_emit quiet_times : quiet.
#[local] Hint Extern 2 (quiet (bind _ _)) => apply quiet_bind; [|intros ?] : quiet.

Lemma quiet_WakeFromIdle : quiet WakeFromIdle.
Proof. unfold WakeFromIdle. auto 10 with quiet. Qed.

Lemma quiet_WakeFromSleep : quiet WakeFromSleep.
Proof. unfold WakeFromSleep. auto 10 with quiet. Qed.

Lemma quiet_StartConversion cmd : quiet (StartConversion cmd).
Proof.
  unfold StartConversion.
  apply quiet_bind; [apply quiet_WakeFromIdle|intros _]. auto 10 with quiet.
Qed.

(** ** Register-group reads *)

Lemma check_registers_true T regs :
  check_registers T regs = true <->
  Exists (fun r => PEC r <> PEC15Calc_data T (data r)) regs.
Proof.
  induction regs as [|r regs IH]; cbn [check_registers].
  - split; [discriminate|]. intros H. inversion H.
  - destruct (PEC r =? PEC15Calc_data T (data r)) eqn:E; cbn [negb].
    + apply Z.eqb_eq in E. rewrite IH. split.
      * intros H. apply Exists_cons_tl. exact H.
      * intros H. inversion H; subst; [contradiction|assumption].
    + apply Z.eqb_neq in E. split; [|reflexivity].
      intros _. apply Exists_cons_hd. exact E.
Qed.

Lemma check_registers_false T regs :
  check_registers T regs = false <->
  Forall (fun r => PEC r = PEC15Calc_data T (data r)) regs.
Proof.
  induction regs as [|r regs IH]; cbn [check_registers].
  - split; [constructor|reflexivity].
  - destruct (PEC r =? PEC15Calc_data T (data r)) eqn:E; cbn [negb].
    + apply Z.eqb_eq in E. rewrite IH. split.
      * intros H. constructor; assumption.
      * intros H. inversion H; assumption.
    + apply Z.eqb_neq in E. split; [discriminate|].
      intros H. inversion H; contradiction.
Qed.

(** What one call of [ReadRegisterGroup] returns and does to the machine. *)
Lemma ReadRegisterGroup_run T get set m :
  let reply := bus m (transactions m) in
  let out := ReadRegisterGroup_reply T reply (get (driver m)) in
  let m' := snd (ReadRegisterGroup T get set m) in
  fst (ReadRegisterGroup T get set m) = fst out
  /\ driver m' = set (snd out) (driver m)
  /\ bus m' = bus m
  /\ transactions m' = S (transactions m)
  /\ beyond m' = beyond m.
Proof.
  cbn zeta. unfold ReadRegisterGroup.
  rewrite !run_bind.
  pose proof (quiet_WakeFromIdle m) as (Hd & Hb & Ht & Hy).
  generalize dependent (snd (WakeFromIdle m)). intros m1 Hd Hb Ht Hy.
  rewrite <- Hd, <- Hb, <- Ht, <- Hy.
  unfold this, transact.
  cbn [fst snd driver bus transactions beyond emit].
  destruct (ReadRegisterGroup_reply T (bus m1 (transactions m1)) (get (driver m1)))
    as [result rg'].
  rewrite !run_bind. unfold assign, ret. cbn [fst snd driver bus transactions beyond].
  destruct (is_HAL_ERROR (transmit_status (bus m1 (transactions m1))));
    cbn [fst snd driver bus transactions beyond emit ret]; auto.
Qed.

(** C10: a register-group read reports failure exactly when the transmit
    or the receive failed or some received register's PEC differs from the
    PEC computed over its data, and reports success exactly when both
    transfers succeeded and every register's PEC matches. *)
Theorem ReadRegisterGroup_fails_iff T get set m :
  let reply := bus m (transactions m) in
  (fst (ReadRegisterGroup T get set m) = true <->
     transmit_status reply = HAL_ERROR \/ receive_status reply = HAL_ERROR \/
     Exists (fun r => PEC r <> PEC15Calc_data T (data r)) (received reply))
  /\ (fst (ReadRegisterGroup T get set m) = false <->
        transmit_status reply = HAL_OK /\ receive_status reply = HAL_OK /\
        Forall (fun r => PEC r = PEC15Calc_data T (data r)) (received reply)).
Proof.
  cbn zeta.
  destruct (ReadRegisterGroup_run T get set m) as (-> & _).
  unfold ReadRegisterGroup_reply.
  destruct (transmit_status (bus m (transactions m)));
    destruct (receive_status (bus m (transactions m)));
    cbn [is_HAL_ERROR fst register_group].
  - rewrite check_registers_true, check_registers_false. split; split.
    + auto.
    + intros [H | [H | H]]; [discriminate H|discriminate H|exact H].
    + auto.
    + intros (_ & _ & H). exact H.
  - split; split; auto. all: try discriminate. intros (_ & H & _). discriminate H.
  - split; split; auto. all: try discriminate. intros (H & _). discriminate H.
  - split; split; auto. all: try discriminate. intros (H & _). discriminate H.
Qed.

(** ** Voltage status: which reads let a result through *)

Lemma ReadRegisterGroup_reply_fails T reply rg :
  fst (ReadRegisterGroup_reply T reply rg) = reply_fails T reply.
Proof.
  unfold ReadRegisterGroup_reply, reply_fails.
  destruct (is_HAL_ERROR (transmit_status reply)); [reflexivity|].
  destruct (is_HAL_ERROR (receive_status reply)); reflexivity.
Qed.

(** The read loop leaves through its [return std::nullopt] exactly when
    one of the reads it gets to make reports success. *)
Lemma read_voltage_groups_returned groups : forall m,
  (fst (read_voltage_groups groups m) = true <->
   exists k, (k < length groups)%nat
             /\ reply_fails U16 (bus m (transactions m + k)%nat) = false)
  /\ bus (snd (read_voltage_groups groups m)) = bus m.
Proof.
  induction groups as [|group groups IH]; intros m; cbn [read_voltage_groups length].
  - split; [|reflexivity]. split; [discriminate|]. intros (k & Hk & _). lia.
  - rewrite run_bind. unfold ReadVoltageRegisterGroup.
    destruct (ReadRegisterGroup_run U16 (fun d => cell_data d group)
                (set_cell_data group) m) as (Hres & _ & Hbus & Htx & _).
    rewrite Hres, ReadRegisterGroup_reply_fails.
    generalize dependent (snd (ReadRegisterGroup U16 (fun d => cell_data d group)
                                 (set_cell_data group) m)).
    intros m1 Hbus Htx.
    destruct (reply_fails U16 (bus m (transactions m))) eqn:E; cbn [negb].
    + destruct (IH m1) as [IHr IHb]. rewrite Hbus, Htx in IHr. split.
      * rewrite IHr. split.
        -- intros (k & Hk & Hf). exists (S k). split; [lia|].
           rewrite <- Hf. f_equal. f_equal. lia.
        -- intros (k & Hk & Hf). destruct k as [|k].
           ++ rewrite Nat.add_0_r in Hf. congruence.
           ++ exists k. split; [lia|]. rewrite <- Hf. f_equal. f_equal. lia.
      * rewrite IHb. exact Hbus.
    + rewrite ret_state. split; [|exact Hbus]. split; [|reflexivity].
      intros _. exists 0%nat. split; [lia|]. rewrite Nat.add_0_r. exact E.
Qed.

(** For every sequence of read outcomes: [GetVoltageStatus] returns
    [nullopt] exactly when one of the (up to four) reads succeeds, hence a
    status exactly when all four reads fail. *)
Lemma GetVoltageStatus_nullopt_iff m :
  fst (GetVoltageStatus m) = None <->
  exists k, (k < 4)%nat
            /\ reply_fails U16 (bus m (transactions m + k)%nat) = false.
Proof.
  unfold GetVoltageStatus. rewrite !run_bind.
  change (snd (this m)) with m. change (fst (this m)) with (driver m).
  destruct (quiet_StartConversion (ADCV (driver m)) m) as (_ & Hbus & Htx & _).
  generalize dependent (snd (StartConversion (ADCV (driver m)) m)).
  intros m1 Hbus Htx.
  destruct (read_voltage_groups_returned [A; B; C; D] m1) as [Hret _].
  rewrite Hbus, Htx in Hret. cbn [length] in Hret. rewrite <- Hret.
  destruct (fst (read_voltage_groups [A; B; C; D] m1)).
  - split; reflexivity.
  - rewrite run_bind. split; discriminate.
Qed.

(** C1 (the code at the failing input): when the chain answers every read
    with intact registers the very first read reports success, and
    [GetVoltageStatus] takes that for the error: it returns [nullopt] after a
    single read.  On a bus where all four reads fail it performs all four
    and returns a status computed from the stale buffers. *)
Theorem GetVoltageStatus_inverted_read_test :
  fst (ReadVoltageRegisterGroup A (machine_on (fun _ => reply_intact))) = false
  /\ fst (GetVoltageStatus (machine_on (fun _ => reply_intact))) = None
  /\ transactions (snd (GetVoltageStatus (machine_on (fun _ => reply_intact)))) = 1%nat
  /\ fst (ReadVoltageRegisterGroup A (machine_on (fun _ => reply_dead))) = true
  /\ fst (GetVoltageStatus (machine_on (fun _ => reply_dead)))
     = Some {| sum := 0; min := 0; min_id := 0; max := 0; max_id := 0 |}
  /\ transactions (snd (GetVoltageStatus (machine_on (fun _ => reply_dead)))) = 4%nat.
Proof. vm_compute. repeat split; reflexivity. Qed.

(** ** Lists laid out in equal blocks *)

Section Blocks.
Context {X Y : Type}.
Variable f : X -> list Y.
Variable n : nat.

Lemma fold_left_flat_map {S : Type} (step : S -> Y -> S) (l : list X) :
  forall s,
    fold_left step (flat_map f l) s
    = fold_left (fun s x => fold_left step (f x) s) l s.
Proof.
  induction l as [|x l IH]; intros s; cbn [flat_map fold_left].
  - reflexivity.
  - rewrite fold_left_app. apply IH.
Qed.

Lemma fold_left_pointwise {S : Type} (step step' : S -> X -> S) (l : list X) :
  (forall s x, step s x = step' s x) ->
  forall s, fold_left step l s = fold_left step' l s.
Proof.
  intros H. induction l as [|x l IH]; intros s; cbn [fold_left].
  - reflexivity.
  - rewrite H. apply IH.
Qed.

Lemma length_flat_map_blocks (l : list X) :
  Forall (fun x => length (f x) = n) l ->
  length (flat_map f l) = (length l * n)%nat.
Proof.
  induction 1 as [|x l Hx _ IH]; cbn [flat_map length].
  - reflexivity.
  - rewrite length_app, Hx, IH. lia.
Qed.

Lemma lookup_flat_map_blocks (l : list X) :
  Forall (fun x => length (f x) = n) l ->
  forall i j x,
    l !! i = Some x -> (j < n)%nat ->
    flat_map f l !! (i * n + j)%nat = f x !! j.
Proof.
  induction 1 as [|x0 l Hx _ IH]; intros i j x Hi Hj.
  - discriminate Hi.
  - cbn [flat_map]. destruct i as [|i].
    + injection Hi as ->. cbn [Nat.mul Nat.add].
      apply lookup_app_l. lia.
    + cbn [lookup list_lookup] in Hi.
      rewrite lookup_app_r by lia.
      replace (S i * n + j - length (f x0))%nat with (i * n + j)%nat by lia.
      apply IH; assumption.
Qed.
End Blocks.

(** ** The scan of [GetVoltageStatus] *)

Lemma scan_cell_data_readings cd :
  scan_cell_data cd = fst (scan_readings (readings cd)).
Proof.
  unfold scan_cell_data, scan_readings, readings. f_equal.
  rewrite fold_left_flat_map. apply fold_left_pointwise.
  intros st rg. unfold scan_group, scan_register.
  rewrite fold_left_flat_map. reflexivity.
Qed.

Lemma scan_voltage_count st v : snd (scan_voltage st v) = usize (snd st + 1).
Proof. destruct st as [s c]. reflexivity. Qed.

Lemma scan_voltage_sum st v :
  sum (fst (scan_voltage st v)) = usize (sum (fst st) + v).
Proof.
  destruct st as [s c]. unfold scan_voltage.
  destruct (v <? min s); [reflexivity|]. destruct (v >? max s); reflexivity.
Qed.

Lemma scan_voltage_min st v :
  min (fst (scan_voltage st v)) = Z.min (min (fst st)) v.
Proof.
  destruct st as [s c]. unfold scan_voltage. cbn [fst].
  destruct (v <? min s) eqn:E; cbn [fst min].
  - apply Z.ltb_lt in E. lia.
  - apply Z.ltb_ge in E. destruct (v >? max s); cbn [min]; lia.
Qed.

Lemma scan_voltage_min_id_new st v :
  v < min (fst st) -> min_id (fst (scan_voltage st v)) = snd st.
Proof.
  destruct st as [s c]. cbn [fst snd]. intros H. unfold scan_voltage.
  apply Z.ltb_lt in H. rewrite H. reflexivity.
Qed.

Lemma scan_voltage_min_id_keep st v :
  min (fst st) <= v -> min_id (fst (scan_voltage st v)) = min_id (fst st).
Proof.
  destruct st as [s c]. cbn [fst snd]. intros H. unfold scan_voltage.
  apply Z.ltb_ge in H. rewrite H. destruct (v >? max s); reflexivity.
Qed.

Lemma scan_count l : forall st,
  0 <= snd st -> snd st + Z.of_nat (length l) < 2 ^ 32 ->
  snd (fold_left scan_voltage l st) = snd st + Z.of_nat (length l).
Proof.
  induction l as [|v l IH]; intros st H0 H; cbn [fold_left length] in *.
  - lia.
  - assert (Hc : snd (scan_voltage st v) = snd st + 1).
    { rewrite scan_voltage_count. apply wrap_small. lia. }
    rewrite IH; rewrite Hc; lia.
Qed.

Lemma scan_min l : forall st,
  min (fst (fold_left scan_voltage l st)) = fold_left Z.min l (min (fst st)).
Proof.
  induction l as [|v l IH]; intros st; cbn [fold_left].
  - reflexivity.
  - rewrite IH, scan_voltage_min. reflexivity.
Qed.

Lemma scan_sum l : forall st,
  sum (fst st) = usize (sum (fst st)) ->
  sum (fst (fold_left scan_voltage l st))
  = usize (sum (fst st) + fold_right Z.add 0 l).
Proof.
  induction l as [|v l IH]; intros st H; cbn [fold_left fold_right].
  - rewrite Z.add_0_r. exact H.
  - rewrite IH.
    + rewrite scan_voltage_sum. unfold usize, wrap.
      rewrite Z.add_mod_idemp_l by lia. f_equal. lia.
    + rewrite scan_voltage_sum. unfold usize, wrap.
      rewrite Z.mod_mod by lia. reflexivity.
Qed.

Lemma fold_min_above x l : forall m,
  x < m -> Forall (fun v => x < v) l -> x < fold_left Z.min l m.
Proof.
  induction l as [|v l IH]; intros m Hm Hl; cbn [fold_left].
  - exact Hm.
  - inversion Hl; subst. apply IH; [lia|assumption].
Qed.

(** Readings that do not go below the current minimum leave it and its
    identity alone. *)
Lemma scan_min_kept l : forall st,
  Forall (fun v => min (fst st) <= v) l ->
  min (fst (fold_left scan_voltage l st)) = min (fst st)
  /\ min_id (fst (fold_left scan_voltage l st)) = min_id (fst st).
Proof.
  induction l as [|v l IH]; intros st Hl; cbn [fold_left].
  - split; reflexivity.
  - inversion Hl as [|? ? Hv Hl']; subst.
    assert (Hm : min (fst (scan_voltage st v)) = min (fst st)).
    { rewrite scan_voltage_min. lia. }
    destruct (IH (scan_voltage st v)) as [IH1 IH2].
    { rewrite Hm. exact Hl'. }
    rewrite IH1, IH2, Hm, scan_voltage_min_id_keep by exact Hv.
    split; reflexivity.
Qed.

(** The minimum and its identity: the first place the least reading
    occurs, counted from zero in scan order. *)
Lemma scan_readings_first_min pre x post :
  Forall (fun v => 0 <= v <= 65535) (pre ++ x :: post) ->
  Forall (fun v => x < v) pre ->
  Forall (fun v => x <= v) post ->
  Z.of_nat (length (pre ++ x :: post)) < 2 ^ 32 ->
  min (fst (scan_readings (pre ++ x :: post))) = x
  /\ min_id (fst (scan_readings (pre ++ x :: post))) = Z.of_nat (length pre).
Proof.
  intros Hrange Hpre Hpost Hlen.
  unfold scan_readings. rewrite fold_left_app. cbn [fold_left].
  set (st1 := fold_left scan_voltage pre (LTC6811VoltageStatus_init, 0)).
  assert (Hc1 : snd st1 = Z.of_nat (length pre)).
  { unfold st1. rewrite scan_count; cbn [snd]; [lia|lia|].
    rewrite length_app in Hlen. lia. }
  assert (Hx : 0 <= x <= 65535).
  { apply Forall_app in Hrange as [_ H]. inversion H; assumption. }
  assert (Hm1 : min (fst st1) = fold_left Z.min pre 65535).
  { unfold st1. rewrite scan_min. reflexivity. }
  destruct (Z.eq_dec x 65535) as [E | NE].
  - (* nothing can lie above 65535, so the reading is the first one *)
    assert (pre = []) as ->.
    { destruct pre as [|v pre]; [reflexivity|].
      inversion Hpre; subst. apply Forall_app in Hrange as [H _].
      inversion H; subst. lia. }
    subst st1. cbn [fold_left length] in *.
    destruct (scan_min_kept post (scan_voltage (LTC6811VoltageStatus_init, 0) x))
      as [K1 K2].
    { rewrite scan_voltage_min. cbn [fst min LTC6811VoltageStatus_init].
      eapply Forall_impl; [exact Hpost|]. cbn beta. intros v Hv. lia. }
    rewrite K1, K2, scan_voltage_min.
    rewrite scan_voltage_min_id_keep by (cbn; lia).
    cbn. split; lia.
  - assert (Hlt : x < min (fst st1)).
    { rewrite Hm1. apply fold_min_above; [lia|exact Hpre]. }
    destruct (scan_min_kept post (scan_voltage st1 x)) as [K1 K2].
    { rewrite scan_voltage_min.
      eapply Forall_impl; [exact Hpost|]. cbn beta. intros v Hv. lia. }
    rewrite K1, K2, scan_voltage_min, scan_voltage_min_id_new by exact Hlt.
    split; [lia|exact Hc1].
Qed.

Lemma scan_voltage_max_below st v x :
  max (fst st) < x -> v < x -> max (fst (scan_voltage st v)) < x.
Proof.
  destruct st as [s c]. cbn [fst]. intros Hs Hv. unfold scan_voltage.
  destruct (v <? min s); [exact Hs|]. destruct (v >? max s); cbn [fst max]; lia.
Qed.

Lemma scan_max_below x l : forall st,
  max (fst st) < x -> Forall (fun v => v < x) l ->
  max (fst (fold_left scan_voltage l st)) < x.
Proof.
  induction l as [|v l IH]; intros st Hs Hl; cbn [fold_left].
  - exact Hs.
  - inversion Hl; subst. apply IH; [|assumption].
    apply scan_voltage_max_below; assumption.
Qed.

Lemma scan_voltage_max_kept st v :
  v <= max (fst st) ->
  max (fst (scan_voltage st v)) = max (fst st)
  /\ max_id (fst (scan_voltage st v)) = max_id (fst st).
Proof.
  destruct st as [s c]. cbn [fst]. intros Hv. unfold scan_voltage.
  destruct (v <? min s); [split; reflexivity|].
  destruct (v >? max s) eqn:E; [|split; reflexivity].
  apply Z.gtb_lt in E. lia.
Qed.

Lemma scan_max_kept l : forall st,
  Forall (fun v => v <= max (fst st)) l ->
  max (fst (fold_left scan_voltage l st)) = max (fst st)
  /\ max_id (fst (fold_left scan_voltage l st)) = max_id (fst st).
Proof.
  induction l as [|v l IH]; intros st Hl; cbn [fold_left].
  - split; reflexivity.
  - inversion Hl as [|? ? Hv Hl']; subst.
    destruct (scan_voltage_max_kept st v Hv) as [K1 K2].
    destruct (IH (scan_voltage st v)) as [IH1 IH2].
    { rewrite K1. exact Hl'. }
    rewrite IH1, IH2, K1, K2. split; reflexivity.
Qed.

Lemma fold_min_le_init l : forall m, fold_left Z.min l m <= m.
Proof.
  induction l as [|v l IH]; intros m; cbn [fold_left]; [lia|].
  specialize (IH (Z.min m v)). lia.
Qed.

Lemma fold_min_le_head v l m : fold_left Z.min (v :: l) m <= v.
Proof. cbn [fold_left]. pose proof (fold_min_le_init l (Z.min m v)). lia. Qed.

(** The maximum and its identity, for a greatest reading that is not the
    very first one and occurs once. *)
Lemma scan_readings_strict_max pre x post :
  pre <> [] ->
  Forall (fun v => 0 <= v <= 65535) (pre ++ x :: post) ->
  Forall (fun v => v < x) pre ->
  Forall (fun v => v < x) post ->
  Z.of_nat (length (pre ++ x :: post)) < 2 ^ 32 ->
  max (fst (scan_readings (pre ++ x :: post))) = x
  /\ max_id (fst (scan_readings (pre ++ x :: post))) = Z.of_nat (length pre).
Proof.
  intros Hne Hrange Hpre Hpost Hlen.
  unfold scan_readings. rewrite fold_left_app. cbn [fold_left].
  set (st1 := fold_left scan_voltage pre (LTC6811VoltageStatus_init, 0)).
  assert (Hc1 : snd st1 = Z.of_nat (length pre)).
  { unfold st1. rewrite scan_count; cbn [snd]; [lia|lia|].
    rewrite length_app in Hlen. lia. }
  destruct pre as [|v0 pre]; [contradiction|].
  assert (Hv0 : 0 <= v0 < x).
  { inversion Hpre; subst. inversion Hrange; subst. lia. }
  assert (Hmin : min (fst st1) <= v0).
  { unfold st1. rewrite scan_min. apply fold_min_le_head. }
  assert (Hmax : max (fst st1) < x).
  { unfold st1. apply scan_max_below; [cbn; lia|exact Hpre]. }
  assert (Hstep : max (fst (scan_voltage st1 x)) = x
                  /\ max_id (fst (scan_voltage st1 x)) = snd st1).
  { destruct st1 as [s c]. cbn [fst snd] in *. unfold scan_voltage.
    replace (x <? min s) with false by (symmetry; apply Z.ltb_ge; lia).
    replace (x >? max s) with true by (symmetry; apply Z.gtb_lt; lia).
    split; reflexivity. }
  destruct Hstep as [S1 S2].
  destruct (scan_max_kept post (scan_voltage st1 x)) as [K1 K2].
  { rewrite S1. eapply Forall_impl; [exact Hpost|]. cbn beta. intros v Hv. lia. }
  rewrite K1, K2, S1, S2. split; [reflexivity|exact Hc1].
Qed.

Lemma total_bound l :
  Forall (fun v => 0 <= v <= 65535) l ->
  0 <= fold_right Z.add 0 l <= 65535 * Z.of_nat (length l).
Proof.
  induction 1 as [|v l Hv _ IH]; cbn [fold_right length]; lia.
Qed.

(** What the scan does get right on any sequence of 16-bit readings short
    enough for [size_t]: the sum is the arithmetic total and the minimum is
    the least reading (65535 when there is none). *)
Lemma scan_readings_sum_min l :
  Forall (fun v => 0 <= v <= 65535) l ->
  65535 * Z.of_nat (length l) < 2 ^ 32 ->
  sum (fst (scan_readings l)) = fold_right Z.add 0 l
  /\ min (fst (scan_readings l)) = fold_left Z.min l 65535.
Proof.
  intros Hrange Hlen. unfold scan_readings. split.
  - rewrite scan_sum by reflexivity. cbn [fst sum LTC6811VoltageStatus_init].
    pose proof (total_bound l Hrange). apply wrap_small. lia.
  - rewrite scan_min. reflexivity.
Qed.

(** ** Where each cell sits in the scan *)

Lemma Group_index_lt g : (Group_index g < 4)%nat.
Proof. destruct g; vm_compute; lia. Qed.

Lemma groups_of_lookup cd g : groups_of cd !! Group_index g = Some (cd g).
Proof. destruct g; reflexivity. Qed.

Lemma well_formed_register_block rg :
  well_formed_group 3 rg ->
  length (flat_map data (register_group rg)) = 36%nat.
Proof.
  intros [Hlen Hall].
  rewrite (length_flat_map_blocks data 3 _ Hall), Hlen. reflexivity.
Qed.

Lemma readings_length cd :
  well_formed_cell_data cd -> length (readings cd) = 144%nat.
Proof.
  intros Hwf. unfold readings.
  assert (Hblocks : Forall (fun rg => length (flat_map data (register_group rg)) = 36%nat)
                      (groups_of cd)).
  { unfold groups_of. repeat constructor; apply well_formed_register_block, Hwf. }
  rewrite (length_flat_map_blocks _ 36 _ Hblocks). reflexivity.
Qed.

Lemma readings_lookup cd g ic k :
  well_formed_cell_data cd -> (ic < 12)%nat -> (k < 3)%nat ->
  readings cd !! (Group_index g * 36 + ic * 3 + k)%nat = Some (cell cd g ic k).
Proof.
  intros Hwf Hic Hk. unfold readings.
  rewrite <- Nat.add_assoc.
  assert (Hblocks : Forall (fun rg => length (flat_map data (register_group rg)) = 36%nat)
                      (groups_of cd)).
  { unfold groups_of. repeat constructor; apply well_formed_register_block, Hwf. }
  rewrite (lookup_flat_map_blocks _ 36 _ Hblocks _ _ (cd g) (groups_of_lookup cd g))
    by lia.
  destruct (Hwf g) as [Hlen Hall].
  destruct (lookup_lt_is_Some_2 (register_group (cd g)) ic) as [r Hr]; [lia|].
  rewrite (lookup_flat_map_blocks data 3 _ Hall _ _ r Hr Hk).
  unfold cell. rewrite Hr.
  assert (Hdr : length (data r) = 3%nat).
  { rewrite Forall_lookup in Hall. exact (Hall _ _ Hr). }
  destruct (lookup_lt_is_Some_2 (data r) k) as [v Hv]; [lia|].
  rewrite Hv. f_equal. symmetry. apply nth_lookup_Some with (d := 0) in Hv. exact Hv.
Qed.

(** Every place of the scan is the place of some cell. *)
Lemma scan_place_cell (j : nat) :
  (j < 144)%nat ->
  exists g ic k,
    (ic < 12)%nat /\ (k < 3)%nat /\ j = (Group_index g * 36 + ic * 3 + k)%nat.
Proof.
  intros Hj.
  pose proof (Nat.div_mod_eq j 36) as H1.
  pose proof (Nat.mod_upper_bound j 36 ltac:(lia)) as H2.
  pose proof (Nat.div_mod_eq (j mod 36) 3) as H3.
  pose proof (Nat.mod_upper_bound (j mod 36) 3 ltac:(lia)) as H4.
  assert (Hq : (j / 36 < 4)%nat) by (apply Nat.Div0.div_lt_upper_bound; lia).
  assert (Hic : (j mod 36 / 3 < 12)%nat) by (apply Nat.Div0.div_lt_upper_bound; lia).
  assert (exists g, Group_index g = (j / 36)%nat) as [g Hg].
  { destruct (j / 36)%nat as [|[|[|[|q]]]]; [exists A|exists B|exists C|exists D|lia];
      reflexivity. }
  exists g, (j mod 36 / 3)%nat, ((j mod 36) mod 3)%nat.
  rewrite Hg. repeat split; [exact Hic|exact H4|lia].
Qed.

Lemma scan_place_inj g ic k g' ic' k' :
  (ic < 12)%nat -> (k < 3)%nat -> (ic' < 12)%nat -> (k' < 3)%nat ->
  (Group_index g * 36 + ic * 3 + k)%nat = (Group_index g' * 36 + ic' * 3 + k')%nat ->
  (g, ic, k) = (g', ic', k').
Proof.
  intros H1 H2 H3 H4 H.
  assert (ic = ic' /\ k = k' /\ Group_index g = Group_index g') as (-> & -> & Hg)
    by (destruct g, g'; cbn in *; lia).
  destruct g, g'; try discriminate Hg; reflexivity.
Qed.

Lemma other_places cd g ic k (P : Z -> Prop) :
  well_formed_cell_data cd -> (ic < 12)%nat -> (k < 3)%nat ->
  (forall g' ic' k',
     (ic' < 12)%nat -> (k' < 3)%nat -> (g', ic', k') <> (g, ic, k) ->
     P (cell cd g' ic' k')) ->
  forall j v,
    j <> (Group_index g * 36 + ic * 3 + k)%nat ->
    readings cd !! j = Some v -> P v.
Proof.
  intros Hwf Hic Hk HP j v Hj Hv.
  assert (Hlt : (j < 144)%nat).
  { rewrite <- (readings_length cd Hwf). eapply lookup_lt_Some, Hv. }
  destruct (scan_place_cell j Hlt) as (g' & ic' & k' & Hic' & Hk' & ->).
  rewrite readings_lookup in Hv by assumption. injection Hv as <-.
  apply HP; [assumption|assumption|].
  intros E. apply Hj. injection E as -> -> ->. reflexivity.
Qed.

(** C4 (as amended): the flattened cell identity enumerates register
    groups A to D outermost, devices 0..11 in the middle and the position in
    the register 0..2 innermost: cell (g, ic, k) is scanned at place
    36 g + 3 ic + k, that place is the [min_id] reported when the cell is the
    one lowest reading, and the [max_id] reported when it is the one highest
    reading and not the first cell scanned. *)
Theorem cell_identity_scan_order cd g ic k :
  well_formed_cell_data cd ->
  Forall (fun v => 0 <= v <= 65535) (readings cd) ->
  (ic < 12)%nat -> (k < 3)%nat ->
  let id := (Group_index g * 36 + ic * 3 + k)%nat in
  readings cd !! id = Some (cell cd g ic k)
  /\ ((forall g' ic' k',
         (ic' < 12)%nat -> (k' < 3)%nat -> (g', ic', k') <> (g, ic, k) ->
         cell cd g ic k < cell cd g' ic' k') ->
      min_id (scan_cell_data cd) = Z.of_nat id)
  /\ ((forall g' ic' k',
         (ic' < 12)%nat -> (k' < 3)%nat -> (g', ic', k') <> (g, ic, k) ->
         cell cd g' ic' k' < cell cd g ic k) ->
      (0 < id)%nat ->
      max_id (scan_cell_data cd) = Z.of_nat id).
Proof.
  intros Hwf Hrange Hic Hk id.
  pose proof (readings_lookup cd g ic k Hwf Hic Hk) as Hid. fold id in Hid.
  pose proof (readings_length cd Hwf) as Hlen.
  pose proof (take_drop_middle _ _ _ Hid) as Hsplit.
  assert (Hidlt : (id < 144)%nat)
    by (pose proof (Group_index_lt g); unfold id; lia).
  assert (Hpre : length (take id (readings cd)) = id) by (rewrite length_take; lia).
  assert (Hbefore : forall P : Z -> Prop,
             (forall j v, j <> id -> readings cd !! j = Some v -> P v) ->
             Forall P (take id (readings cd))).
  { intros P HP. apply Forall_lookup. intros j v Hj.
    assert (j < id)%nat by (rewrite <- Hpre; eapply lookup_lt_Some, Hj).
    rewrite lookup_take_lt in Hj by lia. apply (HP j); [lia|exact Hj]. }
  assert (Hafter : forall P : Z -> Prop,
             (forall j v, j <> id -> readings cd !! j = Some v -> P v) ->
             Forall P (drop (S id) (readings cd))).
  { intros P HP. apply Forall_lookup. intros j v Hj.
    rewrite lookup_drop in Hj. apply (HP (S id + j)%nat); [lia|exact Hj]. }
  rewrite scan_cell_data_readings.
  split; [exact Hid|split].
  - intros Hleast.
    pose proof (other_places cd g ic k (fun v => cell cd g ic k < v) Hwf Hic Hk Hleast)
      as Hothers.
    rewrite <- Hsplit.
    destruct (scan_readings_first_min (take id (readings cd)) (cell cd g ic k)
                (drop (S id) (readings cd))) as [_ ->].
    + rewrite Hsplit. exact Hrange.
    + apply Hbefore, Hothers.
    + eapply Forall_impl; [apply Hafter, Hothers|]. cbn beta. intros v Hv. lia.
    + rewrite Hsplit, Hlen. cbn. lia.
    + rewrite Hpre. reflexivity.
  - intros Hgreatest Hpos.
    pose proof (other_places cd g ic k (fun v => v < cell cd g ic k) Hwf Hic Hk Hgreatest)
      as Hothers.
    rewrite <- Hsplit.
    destruct (scan_readings_strict_max (take id (readings cd)) (cell cd g ic k)
                (drop (S id) (readings cd))) as [_ ->].
    + intros E. rewrite E in Hpre. cbn in Hpre. lia.
    + rewrite Hsplit. exact Hrange.
    + apply Hbefore, Hothers.
    + apply Hafter, Hothers.
    + rewrite Hsplit, Hlen. cbn. lia.
    + rewrite Hpre. reflexivity.
Qed.

Lemma cell_data_of_well_formed v : well_formed_cell_data (cell_data_of v).
Proof.
  intros g. unfold well_formed_group, cell_data_of. cbn [register_group]. split.
  - rewrite length_map, length_seq. reflexivity.
  - apply Forall_map. apply Forall_forall. intros ic _. reflexivity.
Qed.

Lemma cell_identity_scan_order_witness :
  readings (all_but_one B 5 1 29000) !! 52%nat = Some 29000
  /\ min_id (scan_cell_data (all_but_one B 5 1 29000)) = 52.
Proof.
  assert (Hwf : well_formed_cell_data (all_but_one B 5 1 29000))
    by apply cell_data_of_well_formed.
  assert (Hrange : Forall (fun v => 0 <= v <= 65535) (readings (all_but_one B 5 1 29000))).
  { apply (bool_decide_eq_true_1 _). vm_compute. reflexivity. }
  destruct (cell_identity_scan_order (all_but_one B 5 1 29000) B 5 1 Hwf Hrange
              ltac:(lia) ltac:(lia)) as (Hplace & Hmin & _).
  split; [exact Hplace|].
  apply Hmin. intros g' ic' k' Hic Hk Hne.
  destruct g';
    do 12 (destruct ic' as [|ic'];
           [do 3 (destruct k' as [|k'];
                  [first [congruence | vm_compute; reflexivity]|]); lia|]);
    lia.
Defined.

(** C4 (as stated) fails: with the one lowest reading in group A, device 0,
    position 1, the reported [min_id] is 1, not the 12 that an order with the
    position in the middle and the device innermost would give. *)
Lemma cell_identity_not_device_innermost :
  cell (all_but_one A 0 1 29000) A 0 1 = 29000
  /\ min (scan_cell_data (all_but_one A 0 1 29000)) = 29000
  /\ min_id (scan_cell_data (all_but_one A 0 1 29000)) = 1
  /\ min_id (scan_cell_data (all_but_one A 0 1 29000)) <> cell_id_described A 1 0.
Proof. vm_compute. repeat split; try reflexivity. discriminate. Qed.

(** C5 (the code at the failing input): with the highest reading, 40000, in
    the first cell scanned and 30000 everywhere else, the first reading
    lowers the minimum and is never compared with the maximum; the status
    reports max 30000 at identity 2.  A single reading of 5 leaves max at its
    initial 0. *)
Theorem scan_misses_a_leading_maximum :
  readings (all_but_one A 0 0 40000) !! 0%nat = Some 40000
  /\ fold_left Z.max (readings (all_but_one A 0 0 40000)) 0 = 40000
  /\ scan_cell_data (all_but_one A 0 0 40000)
     = {| sum := 4330000; min := 30000; min_id := 1; max := 30000; max_id := 2 |}
  /\ fst (scan_readings [5])
     = {| sum := 5; min := 5; min_id := 0; max := 0; max_id := 0 |}.
Proof. vm_compute. repeat split; reflexivity. Qed.

(** ** Discharge configuration: the walk over the voltage registers *)

Lemma mark_group_cursor threshold far cd st g :
  snd (mark_group threshold far cd st g) = step_back (snd st).
Proof. destruct st as [cells cur]. reflexivity. Qed.

Lemma mark_device_cursor threshold far cd cur :
  snd (mark_device threshold far cd cur) = step_back_device cur.
Proof.
  unfold mark_device.
  destruct (fold_left (mark_group threshold far cd) [A; B; C; D] (0, 0, cur))
    as [[DCCx cell_no] cur'] eqn:E.
  apply (f_equal snd) in E. cbn [snd fold_left] in *.
  rewrite !mark_group_cursor in E. cbn [snd] in E. symmetry. exact E.
Qed.

Lemma stage_threshold_cursor threshold far cd regs : forall cur,
  snd (stage_threshold threshold far cd regs cur)
  = Nat.iter (length regs) step_back_device cur.
Proof.
  induction regs as [|r regs IH]; intros cur; cbn [stage_threshold length].
  - reflexivity.
  - pose proof (mark_device_cursor threshold far cd cur) as Hd.
    destruct (mark_device threshold far cd cur) as [DCCx cur']. cbn [snd] in Hd.
    specialize (IH cur').
    destruct (stage_threshold threshold far cd regs cur') as [rest' cur''].
    cbn [snd] in *. rewrite IH, Hd.
    rewrite <- Nat.iter_succ_r. reflexivity.
Qed.

(** C3 (the code on every input): under either threshold policy
    [current_ic] is decremented once per register group and never reset, so
    the twelve configuration registers index the voltage register arrays
    with 11 down to 0 and then, wrapped, 255 down to 220. *)
Theorem threshold_walk_leaves_the_arrays mode voltage_status far cd regs :
  mode <> MaxOnly ->
  length regs = 12%nat ->
  indexed (snd (stage mode voltage_status far cd regs))
  = [11; 10; 9; 8; 7; 6; 5; 4; 3; 2; 1; 0;
     255; 254; 253; 252; 251; 250; 249; 248; 247; 246; 245; 244;
     243; 242; 241; 240; 239; 238; 237; 236; 235; 234; 233; 232;
     231; 230; 229; 228; 227; 226; 225; 224; 223; 222; 221; 220]
  /\ ~ Forall (fun ic => 0 <= ic < kDaisyChainLength)
         (indexed (snd (stage mode voltage_status far cd regs))).
Proof.
  intros Hmode Hlen.
  assert (E : indexed (snd (stage mode voltage_status far cd regs))
              = indexed (Nat.iter 12 step_back_device
                           {| current_ic := 11; indexed := [] |})).
  { destruct mode; [|contradiction|]; unfold stage;
      rewrite stage_threshold_cursor, Hlen; reflexivity. }
  rewrite E. split; [vm_compute; reflexivity|].
  intros H. rewrite Forall_lookup in H.
  assert (Hat : indexed (Nat.iter 12 step_back_device
                           {| current_ic := 11; indexed := [] |}) !! 12%nat
                = Some 255)
    by (vm_compute; reflexivity).
  specialize (H 12%nat 255 Hat). unfold kDaisyChainLength in H. lia.
Qed.

Lemma threshold_walk_leaves_the_arrays_witness :
  GTMinPlusDelta <> MaxOnly
  /\ nth 12 (indexed (snd (stage GTMinPlusDelta LTC6811VoltageStatus_init
                             (fun _ _ _ => 0) (all_but_one A 0 0 30000)
                             (repeat (sealed U8 [0xFE; 0; 0; 0; 0; 0]) 12)))) 0
     = 255.
Proof.
  split; [discriminate|].
  destruct (threshold_walk_leaves_the_arrays GTMinPlusDelta LTC6811VoltageStatus_init
              (fun _ _ _ => 0) (all_but_one A 0 0 30000)
              (repeat (sealed U8 [0xFE; 0; 0; 0; 0; 0]) 12)
              ltac:(discriminate) ltac:(reflexivity)) as [-> _].
  reflexivity.
Defined.

(** ** Discharge configuration: what the call leaves staged *)

Lemma WriteRegisterGroup_driver T get m :
  driver (snd (WriteRegisterGroup T get m)) = driver m.
Proof.
  unfold WriteRegisterGroup. rewrite !run_bind.
  pose proof (quiet_WakeFromIdle m) as (Hd & _).
  generalize dependent (snd (WakeFromIdle m)). intros m1 Hd.
  unfold this, transact, ret. cbn [fst snd driver emit]. exact Hd.
Qed.

Lemma ReadConfigRegisterGroup_keeps_tx m :
  slave_cfg_tx (driver (snd (ReadConfigRegisterGroup m))) = slave_cfg_tx (driver m).
Proof.
  unfold ReadConfigRegisterGroup.
  destruct (ReadRegisterGroup_run U8 slave_cfg_rx set_slave_cfg_rx m) as (_ & -> & _).
  reflexivity.
Qed.

Lemma WriteConfigRegisterGroup_driver m :
  driver (snd (WriteConfigRegisterGroup m)) = driver m.
Proof. apply WriteRegisterGroup_driver. Qed.

Lemma BuildDischargeConfig_staged voltage_status m :
  slave_cfg_tx (driver (snd (BuildDischargeConfig voltage_status m)))
  = {| command := command (slave_cfg_tx (driver m));
       register_group :=
         fst (stage (discharge_mode (driver m)) voltage_status (beyond m)
                (cell_data (driver m)) (register_group (slave_cfg_tx (driver m)))) |}.
Proof.
  unfold BuildDischargeConfig. rewrite !run_bind.
  change (snd (this m)) with m. change (fst (this m)) with (driver m).
  change (snd (outside m)) with m. change (fst (outside m)) with (beyond m).
  rewrite ret_state.
  rewrite ReadConfigRegisterGroup_keeps_tx, emit_driver,
    WriteConfigRegisterGroup_driver, assign_driver.
  reflexivity.
Qed.

Lemma stage_threshold_first threshold far cd r rest cur :
  fst (stage_threshold threshold far cd (r :: rest) cur) !! 0%nat
  = Some (or_DCCx (fst (mark_device threshold far cd cur)) r).
Proof.
  cbn [stage_threshold].
  destruct (mark_device threshold far cd cur) as [DCCx cur'].
  destruct (stage_threshold threshold far cd rest cur') as [rest' cur''].
  reflexivity.
Qed.

(** C2 (the code at the failing input): the mask of device 0 is built from
    register 11 of group A, register 10 of group B, register 9 of group C and
    register 8 of group D.  With only cell 0 of register 11 in group B above
    minimum + 100, bit 3 of device 0 should be set and is not; with only
    cell 0 of register 10 in group B above it, bit 3 of device 0 should be
    clear and is set. *)
Theorem above_min_mask_mixes_devices (far : Group -> Z -> Z -> Z) :
  (min (scan_cell_data (all_but_one B 11 0 31000)) = 30000
   /\ discharge_bit_described (all_but_one B 11 0 31000) 30000 0 3 = true
   /\ option_map data
        (fst (stage GTMinPlusDelta (scan_cell_data (all_but_one B 11 0 31000)) far
                (all_but_one B 11 0 31000) fresh_cfg) !! 0%nat)
      = Some [0xFE; 0; 0; 0; 0; 0])
  /\ (min (scan_cell_data (all_but_one B 10 0 31000)) = 30000
      /\ discharge_bit_described (all_but_one B 10 0 31000) 30000 0 3 = false
      /\ option_map data
           (fst (stage GTMinPlusDelta (scan_cell_data (all_but_one B 10 0 31000)) far
                   (all_but_one B 10 0 31000) fresh_cfg) !! 0%nat)
         = Some [0xFE; 0; 0; 0; 8; 0]).
Proof.
  unfold stage.
  change fresh_cfg
    with ({| data := [0xFE; 0; 0; 0; 0; 0]; PEC := 0 |}
          :: repeat {| data := [0xFE; 0; 0; 0; 0; 0]; PEC := 0 |} 11).
  rewrite !stage_threshold_first.
  vm_compute. repeat split; reflexivity.
Qed.

(** ** Bits of the two mask bytes *)

Lemma testbit_0xFF c : 0 <= c < 8 -> Z.testbit 0xFF c = true.
Proof. intros H. change 0xFF with (Z.ones 8). apply Z.ones_spec_low. exact H. Qed.

Lemma testbit_0xF c : 0 <= c -> Z.testbit 0xF c = (c <? 4).
Proof.
  intros H. change 0xF with (Z.ones 4). rewrite Z.testbit_ones by lia.
  replace (0 <=? c) with true by (symmetry; apply Z.leb_le; exact H).
  reflexivity.
Qed.

Lemma low_byte_bit x c :
  0 <= c < 8 -> Z.testbit (Z.land x 0xFF) c = Z.testbit x c.
Proof.
  intros H. rewrite Z.land_spec, testbit_0xFF by exact H. apply andb_true_r.
Qed.

Lemma high_nibble_bit x c :
  0 <= c < 8 ->
  Z.testbit (Z.land (Z.shiftr x 8) 0xF) c = (c <? 4) && Z.testbit x (c + 8).
Proof.
  intros H. rewrite Z.land_spec, Z.shiftr_spec, testbit_0xF by lia.
  apply andb_comm.
Qed.

(** What [|=] of the two mask bytes does to a configuration register. *)
Lemma or_DCCx_effect DCCx r :
  length (data r) = 6%nat ->
  (forall k, k <> 4%nat -> k <> 5%nat ->
             data (or_DCCx DCCx r) !! k = data r !! k)
  /\ length (data (or_DCCx DCCx r)) = 6%nat
  /\ PEC (or_DCCx DCCx r) = PEC15Calc_data U8 (data (or_DCCx DCCx r))
  /\ exists b4 b5 b4' b5',
       data r !! 4%nat = Some b4 /\ data r !! 5%nat = Some b5
       /\ data (or_DCCx DCCx r) !! 4%nat = Some b4'
       /\ data (or_DCCx DCCx r) !! 5%nat = Some b5'
       /\ 0 <= b4' < 256 /\ 0 <= b5' < 256
       /\ (forall c, 0 <= c < 8 ->
             Z.testbit b4' c = Z.testbit b4 c || Z.testbit DCCx c)
       /\ (forall c, 0 <= c < 8 ->
             Z.testbit b5' c
             = Z.testbit b5 c || ((c <? 4) && Z.testbit DCCx (c + 8))).
Proof.
  intros Hlen. unfold or_DCCx. cbn [data PEC].
  destruct (lookup_lt_is_Some_2 (data r) 4) as [b4 H4]; [lia|].
  destruct (lookup_lt_is_Some_2 (data r) 5) as [b5 H5]; [lia|].
  split; [|split; [|split]].
  - intros k Hk4 Hk5. rewrite !list_lookup_alter_ne by congruence. reflexivity.
  - rewrite !length_alter. exact Hlen.
  - reflexivity.
  - exists b4, b5, (u8 (Z.lor b4 (Z.land DCCx 0xFF))),
      (u8 (Z.lor b5 (Z.land (Z.shiftr DCCx 8) 0xF))).
    split; [exact H4|]. split; [exact H5|]. split; [|split; [|split; [|split; [|split]]]].
    + rewrite list_lookup_alter_ne by congruence.
      rewrite list_lookup_alter_eq, H4. reflexivity.
    + rewrite list_lookup_alter_eq, list_lookup_alter_ne, H5 by congruence.
      reflexivity.
    + apply (wrap_range 8). lia.
    + apply (wrap_range 8). lia.
    + intros c Hc. unfold u8. rewrite wrap_testbit by lia.
      rewrite Z.lor_spec, low_byte_bit by exact Hc. reflexivity.
    + intros c Hc. unfold u8. rewrite wrap_testbit by lia.
      rewrite Z.lor_spec, high_nibble_bit by exact Hc. reflexivity.
Qed.

(** What [=] of the two mask bytes does to a configuration register. *)
Lemma store_DCCx_effect DCCx r :
  length (data r) = 6%nat ->
  (forall k, k <> 4%nat -> k <> 5%nat ->
             data (store_DCCx DCCx r) !! k = data r !! k)
  /\ length (data (store_DCCx DCCx r)) = 6%nat
  /\ PEC (store_DCCx DCCx r) = PEC15Calc_data U8 (data (store_DCCx DCCx r))
  /\ exists b4' b5',
       data (store_DCCx DCCx r) !! 4%nat = Some b4'
       /\ data (store_DCCx DCCx r) !! 5%nat = Some b5'
       /\ 0 <= b4' < 256 /\ 0 <= b5' < 256
       /\ (forall c, 0 <= c < 8 -> Z.testbit b4' c = Z.testbit DCCx c)
       /\ (forall c, 0 <= c < 8 ->
             Z.testbit b5' c = (c <? 4) && Z.testbit DCCx (c + 8)).
Proof.
  intros Hlen. unfold store_DCCx. cbn [data PEC].
  split; [|split; [|split]].
  - intros k Hk4 Hk5. rewrite !list_lookup_insert_ne by congruence. reflexivity.
  - rewrite !length_insert. exact Hlen.
  - reflexivity.
  - exists (u8 (Z.land DCCx 0xFF)), (u8 (Z.land (Z.shiftr DCCx 8) 0xF)).
    split; [|split; [|split; [|split; [|split]]]].
    + rewrite list_lookup_insert_ne by congruence.
      apply list_lookup_insert_eq. lia.
    + apply list_lookup_insert_eq. rewrite length_insert. lia.
    + apply (wrap_range 8). lia.
    + apply (wrap_range 8). lia.
    + intros c Hc. unfold u8. rewrite wrap_testbit by lia.
      apply low_byte_bit, Hc.
    + intros c Hc. unfold u8. rewrite wrap_testbit by lia.
      apply high_nibble_bit, Hc.
Qed.

(** The mask of the [MaxOnly] case is the single bit [max_id % 11]. *)
Lemma max_only_DCCx id :
  0 <= id < 2 ^ 32 ->
  u16 (Z.lor 0 (Z.shiftl 1 (usize (id mod 11)))) = 2 ^ (id mod 11).
Proof.
  intros H. pose proof (Z.mod_pos_bound id 11 ltac:(lia)) as Hb.
  unfold usize. rewrite (wrap_small 32) by (change (2 ^ 32) with 4294967296; lia).
  rewrite Z.lor_0_l, Z.shiftl_1_l.
  apply wrap_small. split; [apply Z.pow_nonneg; lia|].
  apply Z.pow_lt_mono_r; lia.
Qed.

Lemma max_only_ic id :
  0 <= id < 2 ^ 32 ->
  u8 (usize (usize (id / 3) mod 12)) = id / 3 mod 12.
Proof.
  intros H. change (2 ^ 32) with 4294967296 in H.
  assert (0 <= id / 3 < 4294967296).
  { split; [apply Z.div_pos; lia|]. apply Z.div_lt_upper_bound; lia. }
  pose proof (Z.mod_pos_bound (id / 3) 12 ltac:(lia)).
  unfold usize, u8.
  rewrite (wrap_small 32 (id / 3)) by (change (2 ^ 32) with 4294967296; lia).
  rewrite (wrap_small 32) by (change (2 ^ 32) with 4294967296; lia).
  apply wrap_small. change (2 ^ 8) with 256. lia.
Qed.

(** C6: under the max-only policy, when max - min exceeds 100 the call
    stages exactly one discharge bit, at position [max_id mod 11] of the
    twelve mask bits of device [max_id / 3 mod 12], and recomputes that
    register's PEC; every other register stays as it was.  When max - min does
    not exceed 100 the staged registers are left unchanged. *)
Theorem MaxOnly_stages_one_bit voltage_status m :
  discharge_mode (driver m) = MaxOnly ->
  0 <= max_id voltage_status < 2 ^ 32 ->
  length (register_group (slave_cfg_tx (driver m))) = 12%nat ->
  Forall (fun r => length (data r) = 6%nat) (register_group (slave_cfg_tx (driver m))) ->
  let before := register_group (slave_cfg_tx (driver m)) in
  let after :=
    register_group (slave_cfg_tx (driver (snd (BuildDischargeConfig voltage_status m)))) in
  let device := Z.to_nat (max_id voltage_status / 3 mod 12) in
  let bit := max_id voltage_status mod 11 in
  (kDelta < max voltage_status - min voltage_status ->
   (forall j, j <> device -> after !! j = before !! j)
   /\ exists r r' b4 b5,
        before !! device = Some r /\ after !! device = Some r'
        /\ data r' !! 4%nat = Some b4 /\ data r' !! 5%nat = Some b5
        /\ 0 <= b4 < 256 /\ 0 <= b5 < 256
        /\ (forall c, 0 <= c < 8 -> Z.testbit b4 c = (c =? bit))
        /\ (forall c, 0 <= c < 8 -> Z.testbit b5 c = (c + 8 =? bit))
        /\ (forall k, (k < 4)%nat -> data r' !! k = data r !! k)
        /\ PEC r' = PEC15Calc_data U8 (data r'))
  /\ (max voltage_status - min voltage_status <= kDelta -> after = before).
Proof.
  intros Hmode Hid Hlen Hwf before after device bit.
  assert (Hafter : after = stage_max_only voltage_status before).
  { unfold after. rewrite BuildDischargeConfig_staged. cbn [register_group].
    rewrite Hmode. reflexivity. }
  rewrite Hafter. unfold stage_max_only.
  pose proof (Z.mod_pos_bound (max_id voltage_status) 11 ltac:(lia)) as Hbit.
  pose proof (Z.mod_pos_bound (max_id voltage_status / 3) 12 ltac:(lia)) as Hdev.
  split.
  - intros Hgt.
    replace (max voltage_status - min voltage_status >? kDelta) with true
      by (symmetry; apply Z.gtb_lt; exact Hgt).
    rewrite max_only_ic, max_only_DCCx by exact Hid. fold device. fold bit.
    split.
    + intros j Hj. apply list_lookup_alter_ne. congruence.
    + destruct (lookup_lt_is_Some_2 before device) as [r Hr].
      { unfold before. rewrite Hlen. unfold device. lia. }
      assert (Hr6 : length (data r) = 6%nat).
      { rewrite Forall_lookup in Hwf. exact (Hwf _ _ Hr). }
      destruct (store_DCCx_effect (2 ^ bit) r Hr6)
        as (Hframe & _ & Hpec & b4 & b5 & H4 & H5 & R4 & R5 & B4 & B5).
      exists r, (store_DCCx (2 ^ bit) r), b4, b5.
      split; [exact Hr|]. split; [rewrite list_lookup_alter_eq, Hr; reflexivity|].
      split; [exact H4|]. split; [exact H5|].
      split; [exact R4|]. split; [exact R5|].
      split; [|split; [|split]].
      * intros c Hc. rewrite B4 by exact Hc.
        rewrite Z.pow2_bits_eqb by lia. apply Z.eqb_sym.
      * intros c Hc. rewrite B5 by exact Hc.
        rewrite Z.pow2_bits_eqb by lia.
        destruct (c <? 4) eqn:E; cbn [andb]; [apply Z.eqb_sym|].
        apply Z.ltb_ge in E. symmetry. apply Z.eqb_neq. unfold bit. lia.
      * intros k Hk. apply Hframe; lia.
      * exact Hpec.
  - intros Hle.
    replace (max voltage_status - min voltage_status >? kDelta) with false
      by (symmetry; rewrite Z.gtb_ltb; apply Z.ltb_ge; exact Hle).
    reflexivity.
Qed.

Lemma fresh_cfg_well_formed :
  length fresh_cfg = 12%nat
  /\ Forall (fun r => length (data r) = 6%nat) fresh_cfg.
Proof. split; [reflexivity|]. repeat constructor. Qed.

Lemma MaxOnly_stages_one_bit_witness :
  kDelta < max status_spread - min status_spread
  /\ forall j, j <> 1%nat ->
       register_group
         (slave_cfg_tx (driver (snd (BuildDischargeConfig status_spread (machine_in MaxOnly)))))
       !! j = fresh_cfg !! j.
Proof.
  assert (Hgt : kDelta < max status_spread - min status_spread) by (vm_compute; reflexivity).
  split; [exact Hgt|].
  destruct (MaxOnly_stages_one_bit status_spread (machine_in MaxOnly)
              eq_refl ltac:(cbn; lia) (proj1 fresh_cfg_well_formed)
              (proj2 fresh_cfg_well_formed)) as [Hstaged _].
  destruct (Hstaged Hgt) as [Hframe _]. exact Hframe.
Defined.

Lemma stage_threshold_each threshold far cd regs : forall cur,
  Forall2 (fun r r' =>
             exists cur', r' = or_DCCx (fst (mark_device threshold far cd cur')) r)
    regs (fst (stage_threshold threshold far cd regs cur)).
Proof.
  induction regs as [|r regs IH]; intros cur; cbn [stage_threshold].
  - constructor.
  - destruct (mark_device threshold far cd cur) as [DCCx cur'] eqn:E.
    specialize (IH cur').
    destruct (stage_threshold threshold far cd regs cur') as [rest' cur''].
    cbn [fst] in *. constructor; [|exact IH].
    exists cur. rewrite E. reflexivity.
Qed.

(** Register [device] is staged with the mask computed from the cursor as
    [device] earlier passes have left it. *)
Lemma stage_threshold_lookup threshold far cd regs : forall cur device r,
  regs !! device = Some r ->
  fst (stage_threshold threshold far cd regs cur) !! device
  = Some (or_DCCx
            (fst (mark_device threshold far cd
                    (Nat.iter device step_back_device cur))) r).
Proof.
  induction regs as [|r0 regs IH]; intros cur device r Hr; [discriminate Hr|].
  cbn [stage_threshold].
  pose proof (mark_device_cursor threshold far cd cur) as Hcur.
  destruct (mark_device threshold far cd cur) as [DCCx cur'] eqn:E.
  cbn [snd] in Hcur. subst cur'.
  specialize (IH (step_back_device cur)).
  destruct (stage_threshold threshold far cd regs (step_back_device cur))
    as [rest' cur''].
  cbn [fst] in *. destruct device as [|device].
  - injection Hr as <-. cbn [Nat.iter nat_rect]. rewrite E. reflexivity.
  - change (regs !! device = Some r) in Hr.
    change (rest' !! device
            = Some (or_DCCx
                      (fst (mark_device threshold far cd
                              (Nat.iter (S device) step_back_device cur))) r)).
    rewrite (IH device r Hr), Nat.iter_succ_r. reflexivity.
Qed.

Lemma mark_group_cells threshold far cd cells cur g :
  mark_group threshold far cd (cells, cur) g
  = (fold_left (mark_voltage threshold) (data_at far cd g (current_ic cur)) cells,
     step_back cur).
Proof. reflexivity. Qed.

(** The mask of one pass is the marking of the voltages it visits. *)
Lemma mark_device_DCCx threshold far cd cur :
  fst (mark_device threshold far cd cur)
  = fst (fold_left (mark_voltage threshold) (device_voltages far cd cur) (0, 0)).
Proof.
  unfold mark_device, device_voltages. cbn [fold_left].
  rewrite !mark_group_cells. rewrite !fold_left_app.
  destruct (fold_left (mark_voltage threshold) _ _) as [DCCx current_cell].
  reflexivity.
Qed.

Lemma data_at_length far cd g ic :
  well_formed_cell_data cd -> length (data_at far cd g ic) = 3%nat.
Proof.
  intros Hwf. unfold data_at.
  destruct (register_group (cd g) !! Z.to_nat ic) as [r|] eqn:E; [|reflexivity].
  destruct (Hwf g) as [_ Hall]. rewrite Forall_lookup in Hall. exact (Hall _ _ E).
Qed.

Lemma device_voltages_length far cd cur :
  well_formed_cell_data cd -> length (device_voltages far cd cur) = 12%nat.
Proof.
  intros Hwf. unfold device_voltages.
  rewrite !length_app, !data_at_length by exact Hwf. reflexivity.
Qed.

(** Marking a run of voltages from cell [n] on: the bits below [n] stay,
    bit [n + i] becomes whether the [i]-th voltage is above the threshold, and
    nothing is set beyond the run. *)
Lemma mark_voltages_bits threshold vs : forall DCCx n,
  0 <= n -> n + Z.of_nat (length vs) <= 16 ->
  (forall c, n <= c -> Z.testbit DCCx c = false) ->
  forall c, 0 <= c ->
    Z.testbit (fst (fold_left (mark_voltage threshold) vs (DCCx, n))) c
    = if c <? n then Z.testbit DCCx c
      else nth (Z.to_nat (c - n)) (map (fun v => v >? threshold) vs) false.
Proof.
  induction vs as [|v vs IH]; intros DCCx n Hn Hlen Hhigh c Hc;
    cbn [fold_left length map] in *.
  - cbn [fst]. destruct (c <? n) eqn:E; [reflexivity|].
    apply Z.ltb_ge in E. rewrite Hhigh by exact E.
    destruct (Z.to_nat (c - n)); reflexivity.
  - unfold mark_voltage at 2.
    assert (Hn1 : u8 (n + 1) = n + 1)
      by (apply wrap_small; change (2 ^ 8) with 256; lia).
    rewrite Hn1.
    set (DCCx1 := if v >? threshold
                  then u16 (Z.lor DCCx (Z.shiftl 1 n)) else DCCx).
    assert (Hbit : forall k, 0 <= k ->
              Z.testbit DCCx1 k
              = Z.testbit DCCx k || ((k =? n) && (v >? threshold))).
    { intros k Hk. unfold DCCx1. destruct (v >? threshold).
      - rewrite andb_true_r. destruct (Z_lt_ge_dec k 16) as [Hlt | Hge].
        + unfold u16. rewrite wrap_testbit by lia.
          rewrite Z.lor_spec, Z.shiftl_1_l, Z.pow2_bits_eqb by lia.
          rewrite (Z.eqb_sym n k). reflexivity.
        + unfold u16, wrap. rewrite Z.mod_pow2_bits_high by lia.
          rewrite Hhigh by lia.
          replace (k =? n) with false by (symmetry; apply Z.eqb_neq; lia).
          reflexivity.
      - rewrite andb_false_r, orb_false_r. reflexivity. }
    rewrite IH; [|lia|lia| |exact Hc].
    + destruct (c <? n + 1) eqn:E1; destruct (c <? n) eqn:E2.
      * rewrite Hbit by exact Hc.
        apply Z.ltb_lt in E2.
        replace (c =? n) with false by (symmetry; apply Z.eqb_neq; lia).
        apply orb_false_r.
      * apply Z.ltb_lt in E1. apply Z.ltb_ge in E2.
        assert (c = n) as -> by lia.
        rewrite Hbit, Hhigh, Z.eqb_refl, Z.sub_diag by lia. reflexivity.
      * apply Z.ltb_ge in E1. apply Z.ltb_lt in E2. lia.
      * apply Z.ltb_ge in E1.
        replace (Z.to_nat (c - n)) with (S (Z.to_nat (c - (n + 1)))) by lia.
        reflexivity.
    + intros k Hk. rewrite Hbit by lia. rewrite Hhigh by lia.
      replace (k =? n) with false by (symmetry; apply Z.eqb_neq; lia).
      reflexivity.
Qed.

(** Bit [c] of a pass's mask says whether the [c]-th voltage it visited is
    above the threshold. *)
Lemma mark_device_bits threshold far cd cur c :
  well_formed_cell_data cd -> 0 <= c < 12 ->
  Z.testbit (fst (mark_device threshold far cd cur)) c
  = (nth (Z.to_nat c) (device_voltages far cd cur) 0 >? threshold).
Proof.
  intros Hwf Hc. rewrite mark_device_DCCx.
  pose proof (device_voltages_length far cd cur Hwf) as Hlen.
  rewrite mark_voltages_bits; [|lia|rewrite Hlen; lia| |lia].
  - replace (c <? 0) with false by (symmetry; apply Z.ltb_ge; lia).
    rewrite Z.sub_0_r.
    rewrite (nth_indep _ false (0 >? threshold))
      by (rewrite length_map, Hlen; lia).
    apply (map_nth (fun v => v >? threshold)).
  - intros k _. apply Z.testbit_0_l.
Qed.

Lemma max_only_bytes bit :
  0 <= bit < 11 ->
  u8 (Z.land (2 ^ bit) 0xFF) = Z.land (2 ^ bit) 0xFF
  /\ u8 (Z.land (Z.shiftr (2 ^ bit) 8) 0xF) = Z.shiftr (2 ^ bit) 8.
Proof.
  intros H.
  assert (bit = 0 \/ bit = 1 \/ bit = 2 \/ bit = 3 \/ bit = 4 \/ bit = 5
          \/ bit = 6 \/ bit = 7 \/ bit = 8 \/ bit = 9 \/ bit = 10) as Hcases by lia.
  destruct Hcases as [-> | [-> | [-> | [-> | [-> | [-> | [-> | [-> | [-> | [-> | ->]]]]]]]]]];
    split; reflexivity.
Qed.

(** C9 (as amended): whatever the policy, a balancing call keeps the number
    of configuration registers and bytes 0 to 3 of each.  Under the two
    threshold policies every register gets the mask of its own pass OR'd onto
    bytes 4 and 5 and its PEC recomputed: bit [c] of byte 4 (c = 0..7) is set
    afterwards exactly when it was set before or the [c]-th of the twelve
    voltages the pass visited exceeds the policy's threshold (minimum + 100, or
    mean + 100), bit [c] of byte 5 (c = 0..3) likewise for voltage [c + 8], and
    bits 4 to 7 of byte 5 stay.  Under the max-only policy, when max - min
    exceeds 100 the register of device max_id / 3 mod 12 has byte 4 and byte 5
    replaced by the low and high byte of the single bit max_id mod 11 and its
    PEC recomputed; every other register, and every register when max - min
    does not exceed 100, is left exactly as it was. *)
Theorem staged_mask_effect voltage_status m :
  0 <= max_id voltage_status < 2 ^ 32 ->
  Forall (fun r => length (data r) = 6%nat) (register_group (slave_cfg_tx (driver m))) ->
  well_formed_cell_data (cell_data (driver m)) ->
  let before := register_group (slave_cfg_tx (driver m)) in
  let after :=
    register_group (slave_cfg_tx (driver (snd (BuildDischargeConfig voltage_status m)))) in
  let ored_on (threshold : Z) (device : nat) (r r' : LTC6811Register) : Prop :=
    let voltages := walked_voltages (beyond m) (cell_data (driver m)) device in
    length voltages = 12%nat
    /\ PEC r' = PEC15Calc_data U8 (data r')
    /\ exists b4 b5 b4' b5',
         data r !! 4%nat = Some b4 /\ data r !! 5%nat = Some b5
         /\ data r' !! 4%nat = Some b4' /\ data r' !! 5%nat = Some b5'
         /\ 0 <= b4' < 256 /\ 0 <= b5' < 256
         /\ (forall c, 0 <= c < 8 ->
               Z.testbit b4' c
               = Z.testbit b4 c || (nth (Z.to_nat c) voltages 0 >? threshold))
         /\ (forall c, 0 <= c < 8 ->
               Z.testbit b5' c
               = Z.testbit b5 c
                 || ((c <? 4) && (nth (Z.to_nat (c + 8)) voltages 0 >? threshold))) in
  length after = length before
  /\ forall device r r',
       before !! device = Some r -> after !! device = Some r' ->
       (forall k, k <> 4%nat -> k <> 5%nat -> data r' !! k = data r !! k)
       /\ match discharge_mode (driver m) with
          | GTMinPlusDelta =>
              ored_on (min voltage_status + kDelta) device r r'
          | GTMeanPlusDelta =>
              ored_on (usize (usize (sum voltage_status / (12 * kDaisyChainLength))
                              + kDelta)) device r r'
          | MaxOnly =>
              let bit := max_id voltage_status mod 11 in
              if (max voltage_status - min voltage_status >? kDelta)
                 && Nat.eqb device (Z.to_nat (max_id voltage_status / 3 mod 12))
              then
                data r' !! 4%nat = Some (Z.land (2 ^ bit) 0xFF)
                /\ data r' !! 5%nat = Some (Z.shiftr (2 ^ bit) 8)
                /\ PEC r' = PEC15Calc_data U8 (data r')
              else r' = r
          end.
Proof.
  intros Hid Hwf Hcells before after ored_on.
  assert (Hafter : after = fst (stage (discharge_mode (driver m)) voltage_status
                                  (beyond m) (cell_data (driver m)) before)).
  { unfold after. rewrite BuildDischargeConfig_staged. reflexivity. }
  rewrite Hafter. clear Hafter after.
  assert (Hthreshold : forall threshold,
            let after := fst (stage_threshold threshold (beyond m)
                                (cell_data (driver m)) before first_cursor) in
            length after = length before
            /\ forall device r r',
                 before !! device = Some r -> after !! device = Some r' ->
                 (forall k, k <> 4%nat -> k <> 5%nat -> data r' !! k = data r !! k)
                 /\ ored_on threshold device r r').
  { intros threshold after0. split.
    - symmetry. eapply Forall2_length, stage_threshold_each.
    - intros device r r' Hr Hr'. unfold after0 in Hr'.
      rewrite (stage_threshold_lookup _ _ _ _ _ _ _ Hr) in Hr'.
      injection Hr' as <-.
      assert (Hr6 : length (data r) = 6%nat).
      { rewrite Forall_lookup in Hwf. exact (Hwf _ _ Hr). }
      set (cur := Nat.iter device step_back_device first_cursor).
      destruct (or_DCCx_effect
                  (fst (mark_device threshold (beyond m) (cell_data (driver m)) cur))
                  r Hr6)
        as (Hframe & _ & Hpec & b4 & b5 & b4' & b5'
            & H4 & H5 & H4' & H5' & R4 & R5 & B4 & B5).
      split; [exact Hframe|]. unfold ored_on, walked_voltages. fold cur.
      split; [apply device_voltages_length, Hcells|]. split; [exact Hpec|].
      exists b4, b5, b4', b5'.
      split; [exact H4|]. split; [exact H5|]. split; [exact H4'|].
      split; [exact H5'|]. split; [exact R4|]. split; [exact R5|]. split.
      + intros c Hc. rewrite B4 by exact Hc.
        rewrite mark_device_bits by (try exact Hcells; lia). reflexivity.
      + intros c Hc. rewrite B5 by exact Hc.
        destruct (c <? 4) eqn:E; cbn [andb]; [|reflexivity].
        apply Z.ltb_lt in E.
        rewrite mark_device_bits by (try exact Hcells; lia). reflexivity. }
  destruct (discharge_mode (driver m)); unfold stage.
  - apply Hthreshold.
  - cbn [fst]. unfold stage_max_only.
    destruct (max voltage_status - min voltage_status >? kDelta) eqn:E.
    + rewrite max_only_ic, max_only_DCCx by exact Hid.
      split; [apply length_alter|]. intros device r r' Hr Hr'. cbn zeta.
      cbn [andb].
      destruct (Nat.eqb_spec device (Z.to_nat (max_id voltage_status / 3 mod 12)))
        as [Heq | Hne].
      * rewrite <- Heq, list_lookup_alter_eq, Hr in Hr'. injection Hr' as <-.
        assert (Hr6 : length (data r) = 6%nat).
        { rewrite Forall_lookup in Hwf. exact (Hwf _ _ Hr). }
        destruct (store_DCCx_effect (2 ^ (max_id voltage_status mod 11)) r Hr6)
          as (Hframe & _ & Hpec & _).
        split; [exact Hframe|].
        pose proof (Z.mod_pos_bound (max_id voltage_status) 11 ltac:(lia)) as Hbit.
        destruct (max_only_bytes _ Hbit) as [E4 E5].
        split; [|split; [|exact Hpec]].
        -- unfold store_DCCx. cbn [data].
           rewrite list_lookup_insert_ne by discriminate.
           rewrite list_lookup_insert_eq by lia. rewrite E4. reflexivity.
        -- unfold store_DCCx. cbn [data].
           rewrite list_lookup_insert_eq by (rewrite length_insert; lia).
           rewrite E5. reflexivity.
      * rewrite list_lookup_alter_ne, Hr in Hr' by congruence.
        injection Hr' as <-. split; reflexivity.
    + split; [reflexivity|]. intros device r r' Hr Hr'.
      rewrite Hr in Hr'. injection Hr' as <-. cbn [andb]. split; reflexivity.
  - apply Hthreshold.
Qed.

(** On the charged pack the pass of configuration register 0 finds all
    twelve voltages it visits above minimum + 100 and sets all twelve bits. *)
Example staged_on_charged_pack :
  option_map data
    (register_group
       (slave_cfg_tx
          (driver (snd (BuildDischargeConfig (scan_cell_data cell_data_charged)
                          machine_charged)))) !! 0%nat)
  = Some [0xFE; 0; 0; 0; 0xFF; 0x0F].
Proof. vm_compute. reflexivity. Qed.

Lemma staged_mask_effect_witness :
  0 <= max_id (scan_cell_data cell_data_charged) < 2 ^ 32
  /\ exists r' b4',
       register_group
         (slave_cfg_tx
            (driver (snd (BuildDischargeConfig (scan_cell_data cell_data_charged)
                            machine_charged)))) !! 0%nat = Some r'
       /\ data r' !! 4%nat = Some b4'
       /\ Z.testbit b4' 0 = true.
Proof.
  assert (Hid : 0 <= max_id (scan_cell_data cell_data_charged) < 2 ^ 32)
    by (vm_compute; split; [discriminate|reflexivity]).
  split; [exact Hid|].
  destruct (staged_mask_effect (scan_cell_data cell_data_charged) machine_charged
              Hid (proj2 fresh_cfg_well_formed)
              (cell_data_of_well_formed _)) as [Hlen Heach].
  destruct (lookup_lt_is_Some_2
              (register_group
                 (slave_cfg_tx
                    (driver (snd (BuildDischargeConfig
                                    (scan_cell_data cell_data_charged)
                                    machine_charged))))) 0) as [r' Hr'].
  { rewrite Hlen. cbn. lia. }
  destruct (Heach 0%nat _ r' eq_refl Hr') as [_ Hmode].
  change (discharge_mode (driver machine_charged)) with GTMinPlusDelta in Hmode.
  cbv beta iota zeta in Hmode.
  destruct Hmode as (_ & _ & b4 & b5 & b4' & b5' & _ & _ & H4' & _ & _ & _ & B4 & _).
  exists r', b4'. split; [exact Hr'|]. split; [exact H4'|].
  rewrite B4 by lia. apply orb_true_iff. right. vm_compute. reflexivity.
Defined.

(** C9 (as stated) fails: a second max-only call on the same device does not
    OR its bit onto the bit staged by the first; byte 4 goes from 8 to 32,
    not to 40. *)
Lemma MaxOnly_overwrites_staged_bits :
  option_map data
    (register_group (slave_cfg_tx (driver machine_balanced_once)) !! 1%nat)
  = Some [0xFE; 0; 0; 0; 8; 0]
  /\ option_map data
       (register_group
          (slave_cfg_tx
             (driver (snd (BuildDischargeConfig status_spread machine_balanced_once))))
        !! 1%nat)
     = Some [0xFE; 0; 0; 0; 32; 0]
  /\ Z.lor 8 (Z.land (2 ^ 5) 0xFF) = 40
  /\ option_map (fun r => nth 4 (data r) 0)
       (register_group
          (slave_cfg_tx
             (driver (snd (BuildDischargeConfig status_spread machine_balanced_once))))
        !! 1%nat)
     <> Some (Z.lor 8 (Z.land (2 ^ 5) 0xFF)).
Proof. vm_compute. repeat split; try reflexivity. discriminate. Qed.

(** * Further properties of the driver *)

(** ** PEC15: shape of the result *)

Lemma PEC15Calc_loop_shape fuel : forall data size i PEC r,
  PEC15Calc_loop fuel data size i PEC = Some r ->
  exists acc, r = u16 (Z.shiftl acc 1).
Proof.
  induction fuel as [|fuel IH]; intros data size i PEC r H; [discriminate H|].
  cbn [PEC15Calc_loop] in H. destruct (i <? size).
  - destruct (PEC15Calc_body data i PEC) as [i' PEC']. eapply IH, H.
  - injection H as <-. exists PEC. reflexivity.
Qed.

(** X1: whenever [PEC15Calc] returns, whatever the buffer and the size, its
    result is a 16-bit value whose least significant bit is 0. *)
Theorem PEC15Calc_16bit_even data size :
  (forall fuel r,
     PEC15Calc_run fuel data size = Some r ->
     0 <= r < 65536 /\ Z.testbit r 0 = false)
  /\ 0 <= PEC15Calc data size < 65536
  /\ Z.testbit (PEC15Calc data size) 0 = false.
Proof.
  assert (Hshape : forall fuel r,
            PEC15Calc_run fuel data size = Some r ->
            0 <= r < 65536 /\ Z.testbit r 0 = false).
  { intros fuel r E.
    destruct (PEC15Calc_loop_shape _ _ _ _ _ _ E) as [acc ->]. split.
    - apply (wrap_range 16). lia.
    - unfold u16. rewrite wrap_testbit by lia. apply Z.shiftl_spec_low. lia. }
  split; [exact Hshape|].
  unfold PEC15Calc.
  destruct (PEC15Calc_run 257 data size) as [r|] eqn:E.
  - apply (Hshape 257%nat r E).
  - split; [lia|reflexivity].
Qed.

(** ** PEC15: only the first [size] bytes are read *)

Lemma byte_at_before (pre : list Z) b rest junk :
  byte_at (pre ++ (b :: rest) ++ junk) (Z.of_nat (length pre)) = b.
Proof.
  unfold byte_at. rewrite Nat2Z.id.
  rewrite app_nth2 by lia. rewrite Nat.sub_diag. reflexivity.
Qed.

Lemma PEC15Calc_loop_fold_prefix rest : forall (pre junk : list Z) acc,
  (length pre + length rest <= 255)%nat ->
  PEC15Calc_loop (S (length rest)) (pre ++ rest ++ junk)
    (Z.of_nat (length pre + length rest)) (Z.of_nat (length pre)) acc
  = Some (u16 (Z.shiftl (fold_left pec15_fold_step rest acc) 1)).
Proof.
  induction rest as [|b rest IH]; intros pre junk acc Hlen.
  - cbn [PEC15Calc_loop length fold_left]. rewrite Nat.add_0_r.
    rewrite Z.ltb_irrefl. reflexivity.
  - cbn [length] in Hlen.
    change (length (b :: rest)) with (S (length rest)).
    cbn [PEC15Calc_loop].
    replace (Z.of_nat (length pre) <? Z.of_nat (length pre + S (length rest)))
      with true by (symmetry; apply Z.ltb_lt; lia).
    rewrite PEC15Calc_body_fold, byte_at_before.
    unfold u8. rewrite wrap_small by (change (2 ^ 8) with 256; lia).
    specialize (IH (pre ++ [b]) junk (pec15_fold_step acc b)).
    rewrite <- app_assoc in IH. cbn [app] in IH.
    rewrite length_app in IH. cbn [length] in IH.
    replace (Z.of_nat (length pre) + 1) with (Z.of_nat (length pre + 1)) by lia.
    replace (length pre + S (length rest))%nat
      with (length pre + 1 + length rest)%nat by lia.
    cbn [fold_left]. apply IH. lia.
Qed.

Lemma PEC15Calc_prefix (bytes junk : list Z) :
  (length bytes <= 255)%nat ->
  PEC15Calc (bytes ++ junk) (Z.of_nat (length bytes)) = pec15_contract bytes.
Proof.
  intros H. unfold PEC15Calc, PEC15Calc_run.
  pose proof (PEC15Calc_loop_fold_prefix bytes [] junk 16 ltac:(cbn [length]; lia))
    as Hrun.
  cbn [app length Nat.add] in Hrun.
  apply PEC15Calc_loop_more with (extra := (256 - length bytes)%nat) in Hrun.
  replace (S (length bytes) + (256 - length bytes))%nat with 257%nat in Hrun by lia.
  change (Z.of_nat 0) with 0 in Hrun. rewrite Hrun. reflexivity.
Qed.

(** X2: [PEC15Calc(data, size)] depends on the first [size] bytes of the
    buffer only; what follows them in the array plays no part. *)
Theorem PEC15Calc_reads_size_bytes (bytes junk : list Z) :
  (length bytes <= 255)%nat ->
  PEC15Calc (bytes ++ junk) (Z.of_nat (length bytes)) = pec15_contract bytes.
Proof. apply PEC15Calc_prefix. Qed.

Lemma PEC15Calc_reads_size_bytes_witness :
  (length [0x00; 0x01] <= 255)%nat
  /\ PEC15Calc [0x00; 0x01; 0x55; 0xAA] 2 = pec15_contract [0x00; 0x01].
Proof.
  split; [cbn; lia|].
  apply (PEC15Calc_reads_size_bytes [0x00; 0x01] [0x55; 0xAA]). cbn; lia.
Defined.

Lemma append_PEC_form (b0 b1 x y : Z) :
  append_PEC [b0; b1; x; y]
  = [b0; b1; Z.shiftr (pec15_contract [b0; b1]) 8;
     Z.land (pec15_contract [b0; b1]) 0xFF].
Proof.
  unfold append_PEC.
  pose proof (PEC15Calc_prefix [b0; b1] [x; y] ltac:(cbn; lia)) as Hp.
  change (PEC15Calc [b0; b1; x; y] 2 = pec15_contract [b0; b1]) in Hp.
  rewrite Hp. cbn [insert list_insert].
  assert (Hr : 0 <= pec15_contract [b0; b1] < 65536)
    by (apply (wrap_range 16); lia).
  set (pec := pec15_contract [b0; b1]) in *.
  f_equal. f_equal. f_equal; [|f_equal].
  - unfold u8. apply wrap_small. rewrite Z.shiftr_div_pow2 by lia.
    change (2 ^ 8) with 256. split; [apply Z.div_pos; lia|].
    apply Z.div_lt_upper_bound; lia.
  - unfold u8, wrap. change 0xFF with (Z.ones 8).
    rewrite Z.land_ones by lia. reflexivity.
Qed.

(** X3: sealing a four-byte command keeps its two opcode bytes and replaces
    bytes 2 and 3, whatever they held, by the high and the low byte of the PEC
    of the opcode; sealing a sealed command changes nothing. *)
Theorem append_PEC_seals (b0 b1 x y : Z) :
  let pec := pec15_contract [b0; b1] in
  append_PEC [b0; b1; x; y] = [b0; b1; Z.shiftr pec 8; Z.land pec 0xFF]
  /\ append_PEC (append_PEC [b0; b1; x; y]) = append_PEC [b0; b1; x; y].
Proof.
  cbn zeta. split; [apply append_PEC_form|].
  rewrite append_PEC_form. apply append_PEC_form.
Qed.

(** ** Commands *)

(** X4: every command the sources spell out as a four-byte literal (write
    and read configuration, the four cell-voltage reads, the two auxiliary
    reads, the two status reads, the two clear commands) already ends in the
    PEC of its two opcode bytes, high byte first. *)
Theorem command_literals_sealed :
  length command_literals = 12%nat
  /\ Forall (fun cmd => append_PEC cmd = cmd) command_literals.
Proof.
  split; [reflexivity|].
  unfold command_literals, temp_data_commands, status_registers_commands.
  cbn [app map].
  repeat (constructor; [vm_compute; reflexivity|]). constructor.
Qed.

Lemma build_command_opcode opcode :
  exists hi lo, build_command opcode = [fst opcode; snd opcode; hi; lo].
Proof.
  unfold build_command. rewrite append_PEC_form.
  eexists _, _. reflexivity.
Qed.

Lemma build_command_inj op op' :
  build_command op = build_command op' -> op = op'.
Proof.
  intros H.
  destruct (build_command_opcode op) as (hi & lo & E).
  destruct (build_command_opcode op') as (hi' & lo' & E').
  rewrite E, E' in H. injection H as H0 H1 _ _.
  destruct op, op'. cbn [fst snd] in *. congruence.
Qed.

(** X5: the command builder loses nothing: the start-cell-voltage command
    determines the mode, the discharge permission and the cell selector it was
    built from, and no start-cell-voltage command is also a
    start-auxiliary or start-status command. *)
Theorem build_ADCV_inj mode dcp cell_ch mode' dcp' cell_ch' :
  build_ADCV mode dcp cell_ch = build_ADCV mode' dcp' cell_ch' ->
  mode = mode' /\ dcp = dcp' /\ cell_ch = cell_ch'.
Proof.
  intros H. apply build_command_inj in H.
  destruct mode, dcp, cell_ch, mode', dcp', cell_ch';
    first [repeat split; reflexivity | vm_compute in H; discriminate H].
Qed.

Lemma build_ADCV_inj_witness :
  build_ADCV Fast Enabled TwoAndEight = build_ADCV Fast Enabled TwoAndEight
  /\ Fast = Fast /\ Enabled = Enabled /\ TwoAndEight = TwoAndEight.
Proof.
  split; [reflexivity|].
  apply (build_ADCV_inj Fast Enabled TwoAndEight Fast Enabled TwoAndEight).
  reflexivity.
Defined.

(** X6: the auxiliary and the status conversion commands determine their
    mode and selector too, and the three kinds of conversion command never
    coincide. *)
Theorem conversion_commands_distinct :
  (forall mode aux mode' aux',
     build_ADAX mode aux = build_ADAX mode' aux' -> mode = mode' /\ aux = aux')
  /\ (forall mode sts mode' sts',
        build_ADSTAT mode sts = build_ADSTAT mode' sts' ->
        mode = mode' /\ sts = sts')
  /\ (forall mode dcp cell_ch mode' aux,
        build_ADCV mode dcp cell_ch <> build_ADAX mode' aux)
  /\ (forall mode dcp cell_ch mode' sts,
        build_ADCV mode dcp cell_ch <> build_ADSTAT mode' sts)
  /\ (forall mode aux mode' sts,
        build_ADAX mode aux <> build_ADSTAT mode' sts).
Proof.
  repeat split.
  - apply build_command_inj in H.
    destruct mode, aux, mode', aux';
      first [reflexivity | vm_compute in H; discriminate H].
  - apply build_command_inj in H.
    destruct mode, aux, mode', aux';
      first [reflexivity | vm_compute in H; discriminate H].
  - apply build_command_inj in H.
    destruct mode, sts, mode', sts';
      first [reflexivity | vm_compute in H; discriminate H].
  - apply build_command_inj in H.
    destruct mode, sts, mode', sts';
      first [reflexivity | vm_compute in H; discriminate H].
  - intros mode dcp cell_ch mode' aux H. apply build_command_inj in H.
    destruct mode, dcp, cell_ch, mode', aux; vm_compute in H; discriminate H.
  - intros mode dcp cell_ch mode' sts H. apply build_command_inj in H.
    destruct mode, dcp, cell_ch, mode', sts; vm_compute in H; discriminate H.
  - intros mode aux mode' sts H. apply build_command_inj in H.
    destruct mode, aux, mode', sts; vm_compute in H; discriminate H.
Qed.

(** ** PEC15: a single flipped bit is always noticed *)

Lemma crc15Table_linear i j :
  0 <= i < 256 -> 0 <= j < 256 ->
  byte_at crc15Table (Z.lxor i j)
  = Z.lxor (byte_at crc15Table i) (byte_at crc15Table j).
Proof.
  intros Hi Hj.
  assert (Hall :
    forallb (fun i => forallb (fun j =>
        byte_at crc15Table (Z.lxor i j)
        =? Z.lxor (byte_at crc15Table i) (byte_at crc15Table j))
      (map Z.of_nat (seq 0 256))) (map Z.of_nat (seq 0 256)) = true)
    by (vm_compute; reflexivity).
  assert (Hin : forall x, 0 <= x < 256 -> In x (map Z.of_nat (seq 0 256))).
  { intros x Hx. apply in_map_iff. exists (Z.to_nat x). split; [lia|].
    apply in_seq. lia. }
  rewrite forallb_forall in Hall. specialize (Hall i (Hin i Hi)).
  rewrite forallb_forall in Hall. specialize (Hall j (Hin j Hj)).
  apply Z.eqb_eq. exact Hall.
Qed.

Lemma lxor_swap4 a b c d :
  Z.lxor (Z.lxor a b) (Z.lxor c d) = Z.lxor (Z.lxor a c) (Z.lxor b d).
Proof.
  apply Z.bits_inj'. intros n _. rewrite !Z.lxor_spec.
  destruct (Z.testbit a n), (Z.testbit b n), (Z.testbit c n), (Z.testbit d n);
    reflexivity.
Qed.

Lemma land_lxor_distr a b c :
  Z.land (Z.lxor a b) c = Z.lxor (Z.land a c) (Z.land b c).
Proof.
  apply Z.bits_inj'. intros n _. rewrite !Z.lxor_spec, !Z.land_spec, Z.lxor_spec.
  destruct (Z.testbit a n), (Z.testbit b n), (Z.testbit c n); reflexivity.
Qed.

Lemma u16_lxor x y : u16 (Z.lxor x y) = Z.lxor (u16 x) (u16 y).
Proof.
  unfold u16, wrap. rewrite <- !Z.land_ones by lia.
  apply land_lxor_distr.
Qed.

(** The table step is linear over exclusive or. *)
Lemma pec15_fold_step_lxor acc a b e :
  pec15_fold_step (Z.lxor acc a) (Z.lxor b e)
  = Z.lxor (pec15_fold_step acc b) (pec15_fold_step a e).
Proof.
  unfold pec15_fold_step.
  rewrite Z.shiftr_lxor, Z.shiftl_lxor, lxor_swap4, land_lxor_distr.
  rewrite crc15Table_linear by apply land_255_range.
  rewrite lxor_swap4, u16_lxor. reflexivity.
Qed.

Lemma pec15_fold_lxor rest : forall x y,
  fold_left pec15_fold_step rest (Z.lxor x y)
  = Z.lxor (fold_left pec15_fold_step rest x)
           (fold_left pec15_fold_step (repeat 0 (length rest)) y).
Proof.
  induction rest as [|b rest IH]; intros x y; cbn [fold_left length repeat].
  - reflexivity.
  - rewrite <- IH. f_equal.
    rewrite <- (Z.lxor_0_r b) at 1. apply pec15_fold_step_lxor.
Qed.

(** What flipping bit [j] of the byte [k] places before the end adds to the
    accumulator, whatever the payload. *)
Lemma pec15_flip_syndrome pre b post j :
  pec15_contract (pre ++ Z.lxor b (2 ^ j) :: post)
  = Z.lxor (pec15_contract (pre ++ b :: post))
      (u16 (Z.shiftl
              (fold_left pec15_fold_step (repeat 0 (length post))
                 (pec15_fold_step 0 (2 ^ j))) 1)).
Proof.
  unfold pec15_contract. rewrite !fold_left_app. cbn [fold_left].
  set (acc := fold_left pec15_fold_step pre 16).
  rewrite <- (Z.lxor_0_r acc) at 1.
  rewrite pec15_fold_step_lxor, pec15_fold_lxor.
  rewrite Z.shiftl_lxor, u16_lxor. reflexivity.
Qed.

Lemma pec15_syndrome_nonzero (after : nat) j :
  (after < 6)%nat -> 0 <= j < 8 ->
  u16 (Z.shiftl
         (fold_left pec15_fold_step (repeat 0 after) (pec15_fold_step 0 (2 ^ j))) 1)
  <> 0.
Proof.
  intros Ha Hj.
  assert (j = 0 \/ j = 1 \/ j = 2 \/ j = 3 \/ j = 4 \/ j = 5 \/ j = 6 \/ j = 7)
    as Hcases by lia.
  assert (after = 0 \/ after = 1 \/ after = 2 \/ after = 3 \/ after = 4 \/ after = 5)%nat
    as Hafter by lia.
  destruct Hafter as [-> | [-> | [-> | [-> | [-> | ->]]]]];
    destruct Hcases as [-> | [-> | [-> | [-> | [-> | [-> | [-> | ->]]]]]]];
    vm_compute; discriminate.
Qed.

Lemma alter_middle {X : Type} (f : X -> X) (pre : list X) b post :
  alter f (length pre) (pre ++ b :: post) = pre ++ f b :: post.
Proof.
  induction pre as [|p pre IH]; cbn [length app]; [reflexivity|].
  cbn [alter list_alter]. f_equal. exact IH.
Qed.

Lemma pec15_flip_detected (bytes : list Z) (k : nat) (j : Z) :
  length bytes = 6%nat -> (k < 6)%nat -> 0 <= j < 8 ->
  PEC15Calc (flip_bit k j bytes) 6 <> PEC15Calc bytes 6.
Proof.
  intros Hlen Hk Hj.
  destruct (lookup_lt_is_Some_2 bytes k) as [b Hb]; [lia|].
  pose proof (take_drop_middle _ _ _ Hb) as Hsplit.
  assert (Hpre : length (take k bytes) = k) by (rewrite length_take; lia).
  assert (Hpost : length (drop (S k) bytes) = (5 - k)%nat)
    by (rewrite length_drop; lia).
  assert (Hflip : flip_bit k j bytes
                  = take k bytes ++ Z.lxor b (2 ^ j) :: drop (S k) bytes).
  { unfold flip_bit. rewrite <- Hsplit at 1. rewrite <- Hpre at 1.
    apply (alter_middle (fun b => Z.lxor b (2 ^ j))). }
  assert (Hlen' : length (flip_bit k j bytes) = 6%nat)
    by (unfold flip_bit; rewrite length_alter; exact Hlen).
  assert (E1 : PEC15Calc (flip_bit k j bytes) 6 = pec15_contract (flip_bit k j bytes)).
  { rewrite <- PEC15Calc_is_contract by lia. rewrite Hlen'. reflexivity. }
  assert (E2 : PEC15Calc bytes 6 = pec15_contract bytes).
  { rewrite <- PEC15Calc_is_contract by lia. rewrite Hlen. reflexivity. }
  rewrite E1, E2.
  rewrite Hflip, pec15_flip_syndrome, Hsplit. intros Heq.
  apply (pec15_syndrome_nonzero (length (drop (S k) bytes)) j); [lia|exact Hj|].
  set (P := pec15_contract bytes) in *.
  set (Q := u16 _) in *.
  assert (HQ : Q = Z.lxor P (Z.lxor P Q))
    by (rewrite <- Z.lxor_assoc, Z.lxor_nilpotent, Z.lxor_0_l; reflexivity).
  rewrite HQ, Heq. apply Z.lxor_nilpotent.
Qed.

(** X7: inverting any one bit of a six-byte payload changes its PEC. *)
Theorem PEC15_single_bit_flip_changes_PEC (bytes : list Z) (k : nat) (j : Z) :
  length bytes = 6%nat -> (k < 6)%nat -> 0 <= j < 8 ->
  PEC15Calc (flip_bit k j bytes) 6 <> PEC15Calc bytes 6.
Proof. apply pec15_flip_detected. Qed.

Lemma PEC15_single_bit_flip_changes_PEC_witness :
  length [0xFE; 0; 0; 0; 0; 0] = 6%nat
  /\ PEC15Calc (flip_bit 4 3 [0xFE; 0; 0; 0; 0; 0]) 6
     <> PEC15Calc [0xFE; 0; 0; 0; 0; 0] 6.
Proof.
  split; [reflexivity|].
  apply (PEC15_single_bit_flip_changes_PEC [0xFE; 0; 0; 0; 0; 0] 4 3);
    [reflexivity|lia|lia].
Defined.

(** X8: a read fails as soon as one received register differs in a single
    payload bit from the six bytes its PEC was computed over, wherever that
    register sits in the chain. *)
Theorem ReadRegisterGroup_rejects_single_bit_flip
  T get set m (pre post : list LTC6811Register) (r : LTC6811Register)
  (sent : list Z) (k : nat) (j : Z) :
  received (bus m (transactions m)) = pre ++ r :: post ->
  (length (data r) * sizeof T = 6)%nat ->
  length sent = 6%nat -> (k < 6)%nat -> 0 <= j < 8 ->
  PEC r = PEC15Calc sent 6 ->
  serialized T (data r) = flip_bit k j sent ->
  fst (ReadRegisterGroup T get set m) = true.
Proof.
  intros Hrx Hsize Hsent Hk Hj Hpec Hflip.
  destruct (ReadRegisterGroup_run T get set m) as (-> & _).
  rewrite ReadRegisterGroup_reply_fails. unfold reply_fails.
  destruct (is_HAL_ERROR (transmit_status (bus m (transactions m)))); [reflexivity|].
  destruct (is_HAL_ERROR (receive_status (bus m (transactions m)))); [reflexivity|].
  cbn [orb]. apply check_registers_true. rewrite Hrx.
  apply Exists_app. right. apply Exists_cons_hd.
  unfold PEC15Calc_data. rewrite Hsize, Hflip, Hpec.
  intros Heq. symmetry in Heq. revert Heq.
  apply pec15_flip_detected; assumption.
Qed.

Lemma ReadRegisterGroup_rejects_single_bit_flip_witness :
  received reply_one_bit_off
  = repeat (sealed U16 [30000; 30000; 30000]) 11
    ++ {| data := [30001; 30000; 30000];
          PEC := PEC15Calc_data U16 [30000; 30000; 30000] |} :: []
  /\ fst (ReadVoltageRegisterGroup C (machine_on (fun _ => reply_one_bit_off))) = true.
Proof.
  split; [reflexivity|].
  apply (ReadRegisterGroup_rejects_single_bit_flip U16
           (fun d => cell_data d C) (set_cell_data C)
           (machine_on (fun _ => reply_one_bit_off))
           (repeat (sealed U16 [30000; 30000; 30000]) 11) []
           {| data := [30001; 30000; 30000];
              PEC := PEC15Calc_data U16 [30000; 30000; 30000] |}
           (serialized U16 [30000; 30000; 30000]) 0 0);
    [reflexivity|reflexivity|reflexivity|lia|lia|reflexivity|reflexivity].
Defined.

(** ** Event traces of the bus procedures *)

Lemma logged_nil m : logged m [] = m.
Proof. destruct m. unfold logged. cbn. rewrite app_nil_r. reflexivity. Qed.

Lemma logged_logged m a b : logged (logged m a) b = logged m (a ++ b).
Proof. unfold logged. cbn. rewrite app_assoc. reflexivity. Qed.

Lemma appends_emit e : appends (emit e) [e].
Proof. intros m. reflexivity. Qed.

Lemma appends_ret : appends (ret tt) [].
Proof. intros m. unfold ret. rewrite logged_nil. reflexivity. Qed.

Lemma appends_seq c k a b :
  appends c a -> appends k b -> appends (bind c (fun _ => k)) (a ++ b).
Proof.
  intros Hc Hk m. unfold bind. rewrite Hc, Hk, logged_logged. reflexivity.
Qed.

Lemma appends_times n c a :
  appends c a -> appends (times n c) (concat (repeat a n)).
Proof.
  intros Hc. induction n as [|n IH]; cbn [times repeat concat].
  - apply appends_ret.
  - apply appends_seq; assumption.
Qed.

Lemma appends_WakeFromIdle : appends WakeFromIdle (concat (repeat idle_pulse 12)).
Proof.
  unfold WakeFromIdle. apply (appends_times 12 _ idle_pulse).
  apply (appends_seq _ _ [_] [_; _]); [apply appends_emit|].
  apply (appends_seq _ _ [_] [_]); apply appends_emit.
Qed.

Lemma appends_WakeFromSleep : appends WakeFromSleep (concat (repeat sleep_pulse 12)).
Proof.
  unfold WakeFromSleep. apply (appends_times 12 _ sleep_pulse).
  apply (appends_seq _ _ [_] [_; _; _]); [apply appends_emit|].
  apply (appends_seq _ _ [_] [_; _]); [apply appends_emit|].
  apply (appends_seq _ _ [_] [_]); apply appends_emit.
Qed.

Lemma appends_transmission cmd :
  appends (WakeFromIdle ;; emit (GPIO_WritePin false) ;;
           emit (SPI_Transmit cmd) ;; emit (GPIO_WritePin true))%drv
    (concat (repeat idle_pulse 12)
     ++ [GPIO_WritePin false; SPI_Transmit cmd; GPIO_WritePin true]).
Proof.
  apply appends_seq; [apply appends_WakeFromIdle|].
  apply (appends_seq _ _ [_] [_; _]); [apply appends_emit|].
  apply (appends_seq _ _ [_] [_]); apply appends_emit.
Qed.

(** X9: the two wake procedures touch nothing but the bus lines.  Waking
    from idle is twelve pulses of select low, one byte 0xFF, select high;
    waking from sleep is twelve pulses of select low, 400 us, select high,
    10 us, 4920 us of waiting in all. *)
Theorem wake_procedures_trace m :
  WakeFromIdle m = (tt, logged m (concat (repeat idle_pulse 12)))
  /\ WakeFromSleep m = (tt, logged m (concat (repeat sleep_pulse 12)))
  /\ length (concat (repeat idle_pulse 12)) = 36%nat
  /\ total_delay (concat (repeat sleep_pulse 12)) = 4920.
Proof.
  split; [apply appends_WakeFromIdle|].
  split; [apply appends_WakeFromSleep|].
  split; reflexivity.
Qed.

(** X10: starting a conversion and clearing the registers each wake the
    chain from idle, send their one command framed by select low and select
    high, and change neither the driver object nor the number of bus replies
    used; a conversion then waits 5585 us. *)
Theorem command_transmissions_trace cmd m :
  StartConversion cmd m
  = (tt, logged m (concat (repeat idle_pulse 12)
                   ++ [GPIO_WritePin false; SPI_Transmit cmd; GPIO_WritePin true;
                       DWT_Delay 5585]))
  /\ ClearVoltageRegisters m
     = (tt, logged m (concat (repeat idle_pulse 12)
                      ++ [GPIO_WritePin false; SPI_Transmit [7; 17; 201; 192];
                          GPIO_WritePin true]))
  /\ ClearAuxRegisters m
     = (tt, logged m (concat (repeat idle_pulse 12)
                      ++ [GPIO_WritePin false; SPI_Transmit [7; 18; 223; 164];
                          GPIO_WritePin true])).
Proof.
  split; [|split].
  - unfold StartConversion.
    apply (appends_seq _ _ _ [_; _; _; _]); [apply appends_WakeFromIdle|].
    apply (appends_seq _ _ [_] [_; _; _]); [apply appends_emit|].
    apply (appends_seq _ _ [_] [_; _]); [apply appends_emit|].
    apply (appends_seq _ _ [_] [_]); apply appends_emit.
  - apply appends_transmission.
  - apply appends_transmission.
Qed.

(** ** Register-group transactions: everything they leave behind *)

Lemma ReadRegisterGroup_full T get set m :
  let reply := bus m (transactions m) in
  let out := ReadRegisterGroup_reply T reply (get (driver m)) in
  ReadRegisterGroup T get set m
  = (fst out,
     {| driver := set (snd out) (driver m);
        bus := bus m;
        transactions := S (transactions m);
        trace :=
          trace m
          ++ concat (repeat idle_pulse 12)
          ++ [GPIO_WritePin false; SPI_Transmit (command (get (driver m)));
              GPIO_WritePin false]
          ++ (if is_HAL_ERROR (transmit_status reply) then []
              else [SPI_Receive 96]);
        beyond := beyond m |}).
Proof.
  cbn zeta. unfold ReadRegisterGroup. unfold bind at 1.
  rewrite appends_WakeFromIdle.
  unfold bind, this, emit, transact, assign, ret, logged.
  cbn [driver bus transactions trace beyond].
  destruct (ReadRegisterGroup_reply T (bus m (transactions m)) (get (driver m)))
    as [result rg'].
  cbn [fst snd].
  destruct (is_HAL_ERROR (transmit_status (bus m (transactions m))));
    cbn [driver bus transactions trace beyond];
    f_equal; f_equal; rewrite <- ?app_assoc; reflexivity.
Qed.

Lemma WriteRegisterGroup_full T get m :
  WriteRegisterGroup T get m
  = (is_HAL_ERROR (transmit_status (bus m (transactions m))),
     {| driver := driver m;
        bus := bus m;
        transactions := S (transactions m);
        trace :=
          trace m
          ++ concat (repeat idle_pulse 12)
          ++ [GPIO_WritePin false;
              SPI_Transmit (serialized_group T (get (driver m)));
              GPIO_WritePin true];
        beyond := beyond m |}).
Proof.
  unfold WriteRegisterGroup. unfold bind at 1.
  rewrite appends_WakeFromIdle.
  unfold bind, this, emit, transact, ret, logged.
  cbn [driver bus transactions trace beyond].
  f_equal. f_equal. rewrite <- ?app_assoc. reflexivity.
Qed.

Lemma Group_eqb_neq g h : h <> g -> Group_eqb g h = false.
Proof. destruct g, h; intros H; try reflexivity; contradiction. Qed.

Lemma Group_eqb_refl g : Group_eqb g g = true.
Proof. destruct g; reflexivity. Qed.

(** X11: a cell-voltage read touches one buffer only.  If the command
    could not be transmitted the buffer of the group is as before; otherwise
    it holds exactly what was received, whether or not the read then reports
    failure.  The group's command, the buffers of the other groups, both
    configuration groups and the discharge mode are never changed, and one
    bus reply is used. *)
Theorem ReadVoltageRegisterGroup_buffers g m :
  let reply := bus m (transactions m) in
  let m' := snd (ReadVoltageRegisterGroup g m) in
  cell_data (driver m') g
  = (if is_HAL_ERROR (transmit_status reply) then cell_data (driver m) g
     else {| command := command (cell_data (driver m) g);
             register_group := received reply |})
  /\ (forall h, h <> g -> cell_data (driver m') h = cell_data (driver m) h)
  /\ slave_cfg_tx (driver m') = slave_cfg_tx (driver m)
  /\ slave_cfg_rx (driver m') = slave_cfg_rx (driver m)
  /\ discharge_mode (driver m') = discharge_mode (driver m)
  /\ transactions m' = S (transactions m).
Proof.
  cbn zeta. unfold ReadVoltageRegisterGroup. rewrite ReadRegisterGroup_full.
  cbn [snd driver transactions set_cell_data cell_data slave_cfg_tx slave_cfg_rx
       discharge_mode].
  split; [|split; [|repeat split]].
  - rewrite Group_eqb_refl. unfold ReadRegisterGroup_reply.
    destruct (is_HAL_ERROR (transmit_status (bus m (transactions m))));
      [reflexivity|].
    destruct (is_HAL_ERROR (receive_status (bus m (transactions m)))); reflexivity.
  - intros h Hh. rewrite (Group_eqb_neq g h Hh). reflexivity.
Qed.

(** X12: a read sends the group's command after the idle wake, asks for
    96 bytes only if that transmit did not fail, and never raises the select
    line again: both pin writes of the transaction drive it low. *)
Theorem ReadRegisterGroup_trace T get set m :
  let tail :=
    [GPIO_WritePin false; SPI_Transmit (command (get (driver m)));
     GPIO_WritePin false]
    ++ (if is_HAL_ERROR (transmit_status (bus m (transactions m))) then []
        else [SPI_Receive (kBytesPerRegister * kDaisyChainLength)]) in
  trace (snd (ReadRegisterGroup T get set m))
  = trace m ++ concat (repeat idle_pulse 12) ++ tail
  /\ existsb raises_select tail = false.
Proof.
  cbn zeta. rewrite ReadRegisterGroup_full. cbn [snd trace]. split.
  - reflexivity.
  - destruct (is_HAL_ERROR (transmit_status (bus m (transactions m)))); reflexivity.
Qed.

Lemma length_object_bytes width x : length (object_bytes width x) = width.
Proof. unfold object_bytes. rewrite length_map, length_seq. reflexivity. Qed.

Lemma length_serialized T d : length (serialized T d) = (length d * sizeof T)%nat.
Proof.
  unfold serialized. apply length_flat_map_blocks.
  apply Forall_forall. intros x _. apply length_object_bytes.
Qed.

Lemma length_serialized_group T per_register rg :
  well_formed_group per_register rg ->
  length (serialized_group T rg)
  = (length (command rg) + 12 * (per_register * sizeof T + 2))%nat.
Proof.
  intros [Hlen Hall]. unfold serialized_group. rewrite length_app. f_equal.
  rewrite (length_flat_map_blocks _ (per_register * sizeof T + 2)), Hlen; [lia|].
  eapply Forall_impl; [exact Hall|]. cbn beta. intros r Hr.
  unfold serialized_register.
  rewrite length_app, length_serialized, length_object_bytes, Hr. reflexivity.
Qed.

(** X13: writing the configuration group transmits, after the idle wake
    and between select low and select high, one stream of 100 bytes that
    begins with the group's command; it returns whether that transmit failed,
    uses one bus reply and leaves the driver object as it was. *)
Theorem WriteConfigRegisterGroup_effects m :
  length (command (slave_cfg_tx (driver m))) = 4%nat ->
  well_formed_group 6 (slave_cfg_tx (driver m)) ->
  let stream := serialized_group U8 (slave_cfg_tx (driver m)) in
  WriteConfigRegisterGroup m
  = (is_HAL_ERROR (transmit_status (bus m (transactions m))),
     {| driver := driver m; bus := bus m; transactions := S (transactions m);
        trace := trace m ++ concat (repeat idle_pulse 12)
                 ++ [GPIO_WritePin false; SPI_Transmit stream; GPIO_WritePin true];
        beyond := beyond m |})
  /\ length stream = 100%nat
  /\ take 4 stream = command (slave_cfg_tx (driver m)).
Proof.
  intros Hcmd Hwf. cbn zeta. split; [apply WriteRegisterGroup_full|]. split.
  - rewrite (length_serialized_group U8 6 _ Hwf), Hcmd. reflexivity.
  - unfold serialized_group. rewrite take_app_length'; [reflexivity|symmetry; exact Hcmd].
Qed.

Lemma WriteConfigRegisterGroup_effects_witness :
  length (command (slave_cfg_tx (driver (machine_in MaxOnly)))) = 4%nat
  /\ length (serialized_group U8 (slave_cfg_tx (driver (machine_in MaxOnly)))) = 100%nat.
Proof.
  split; [reflexivity|].
  destruct (WriteConfigRegisterGroup_effects (machine_in MaxOnly) eq_refl
              (conj (proj1 fresh_cfg_well_formed) (proj2 fresh_cfg_well_formed)))
    as (_ & Hlen & _).
  exact Hlen.
Defined.

(** ** Voltage status: how many reads, and what is returned *)





(** ** The scan: what is right for every input, and when the maximum is *)

Lemma first_least_split (l : list Z) :
  l <> [] ->
  exists pre x post,
    l = pre ++ x :: post
    /\ Forall (fun v => x < v) pre /\ Forall (fun v => x <= v) post.
Proof.
  induction l as [|a l IH]; intros Hne; [contradiction|].
  destruct l as [|b l].
  - exists [], a, []. repeat split; constructor.
  - destruct (IH ltac:(discriminate)) as (pre & x & post & Hl & Hpre & Hpost).
    destruct (Z_le_gt_dec a x) as [Hle | Hgt].
    + exists [], a, (b :: l). split; [reflexivity|]. split; [constructor|].
      rewrite Hl. apply Forall_app. split.
      * eapply Forall_impl; [exact Hpre|]. cbn beta. intros v Hv. lia.
      * constructor; [lia|].
        eapply Forall_impl; [exact Hpost|]. cbn beta. intros v Hv. lia.
    + exists (a :: pre), x, post. split; [rewrite Hl; reflexivity|].
      split; [constructor; [lia|exact Hpre]|exact Hpost].
Qed.

(** X16: on every non-empty sequence of 16-bit readings that [size_t] can
    count and sum, the scan returns their arithmetic total, the least reading
    as [min], and as [min_id] the first place at which that least reading
    occurs. *)
Theorem scan_sum_and_minimum (l : list Z) :
  l <> [] ->
  Forall (fun v => 0 <= v <= 65535) l ->
  65535 * Z.of_nat (length l) < 2 ^ 32 ->
  let status := fst (scan_readings l) in
  sum status = fold_right Z.add 0 l
  /\ Forall (fun v => min status <= v) l
  /\ exists i,
       l !! i = Some (min status)
       /\ min_id status = Z.of_nat i
       /\ forall j v, (j < i)%nat -> l !! j = Some v -> min status < v.
Proof.
  intros Hne Hrange Hlen. cbn zeta.
  destruct (scan_readings_sum_min l Hrange Hlen) as [Hsum _].
  split; [exact Hsum|].
  destruct (first_least_split l Hne) as (pre & x & post & -> & Hpre & Hpost).
  destruct (scan_readings_first_min pre x post Hrange Hpre Hpost) as [Hmin Hid].
  { lia. }
  rewrite Hmin, Hid. split.
  - apply Forall_app. split.
    + eapply Forall_impl; [exact Hpre|]. cbn beta. intros v Hv. lia.
    + constructor; [lia|exact Hpost].
  - exists (length pre). split; [|split; [reflexivity|]].
    + rewrite lookup_app_r by lia. rewrite Nat.sub_diag. reflexivity.
    + intros j v Hj Hv. rewrite lookup_app_l in Hv by lia.
      rewrite Forall_lookup in Hpre. exact (Hpre _ _ Hv).
Qed.

Lemma scan_sum_and_minimum_witness :
  [30000; 29000; 31000; 29000] <> []
  /\ sum (fst (scan_readings [30000; 29000; 31000; 29000])) = 119000.
Proof.
  split; [discriminate|].
  destruct (scan_sum_and_minimum [30000; 29000; 31000; 29000])
    as (Hsum & _).
  - discriminate.
  - repeat constructor; lia.
  - cbn. lia.
  - exact Hsum.
Defined.

(** X17: when the greatest reading first occurs somewhere after the first
    place scanned, the scan returns it as [max] and that first place as
    [max_id]. *)
Theorem scan_maximum_found (pre post : list Z) (x : Z) :
  pre <> [] ->
  Forall (fun v => 0 <= v <= 65535) (pre ++ x :: post) ->
  Forall (fun v => v < x) pre ->
  Forall (fun v => v <= x) post ->
  Z.of_nat (length (pre ++ x :: post)) < 2 ^ 32 ->
  max (fst (scan_readings (pre ++ x :: post))) = x
  /\ max_id (fst (scan_readings (pre ++ x :: post))) = Z.of_nat (length pre).
Proof.
  intros Hne Hrange Hpre Hpost Hlen.
  unfold scan_readings. rewrite fold_left_app. cbn [fold_left].
  set (st1 := fold_left scan_voltage pre (LTC6811VoltageStatus_init, 0)).
  assert (Hc1 : snd st1 = Z.of_nat (length pre)).
  { unfold st1. rewrite scan_count; cbn [snd]; [lia|lia|].
    rewrite length_app in Hlen. lia. }
  destruct pre as [|v0 pre]; [contradiction|].
  assert (Hv0 : 0 <= v0 < x).
  { inversion Hpre; subst. inversion Hrange; subst. lia. }
  assert (Hmin : min (fst st1) <= v0).
  { unfold st1. rewrite scan_min. apply fold_min_le_head. }
  assert (Hmax : max (fst st1) < x).
  { unfold st1. apply scan_max_below; [cbn; lia|exact Hpre]. }
  assert (Hstep : max (fst (scan_voltage st1 x)) = x
                  /\ max_id (fst (scan_voltage st1 x)) = snd st1).
  { destruct st1 as [s c]. cbn [fst snd] in *. unfold scan_voltage.
    replace (x <? min s) with false by (symmetry; apply Z.ltb_ge; lia).
    replace (x >? max s) with true by (symmetry; apply Z.gtb_lt; lia).
    split; reflexivity. }
  destruct Hstep as [S1 S2].
  destruct (scan_max_kept post (scan_voltage st1 x)) as [K1 K2].
  { rewrite S1. exact Hpost. }
  rewrite K1, K2, S1, S2. split; [reflexivity|exact Hc1].
Qed.

Lemma scan_maximum_found_witness :
  [30000] <> []
  /\ max_id (fst (scan_readings ([30000] ++ 31000 :: [31000; 29000]))) = 1.
Proof.
  split; [discriminate|].
  destruct (scan_maximum_found [30000] [31000; 29000] 31000) as [_ Hid].
  - discriminate.
  - repeat constructor; lia.
  - repeat constructor; lia.
  - repeat constructor; lia.
  - cbn. lia.
  - exact Hid.
Defined.

(** X18: when the first reading scanned is greater than every later one
    (and is neither 0 nor 65535) the scan never compares it with the maximum:
    the [max] it returns is below the greatest reading. *)
Theorem scan_maximum_lost (x : Z) (post : list Z) :
  0 < x < 65535 ->
  Forall (fun v => 0 <= v < x) post ->
  max (fst (scan_readings (x :: post))) < x.
Proof.
  intros Hx Hpost. unfold scan_readings. cbn [fold_left].
  apply scan_max_below.
  - unfold scan_voltage. cbn [fst snd LTC6811VoltageStatus_init min max].
    replace (x <? 65535) with true by (symmetry; apply Z.ltb_lt; lia).
    cbn [fst max]. lia.
  - eapply Forall_impl; [exact Hpost|]. cbn beta. intros v Hv. lia.
Qed.

Lemma scan_maximum_lost_witness :
  0 < 40000 < 65535
  /\ max (fst (scan_readings (40000 :: [30000; 30000]))) < 40000.
Proof.
  split; [lia|].
  apply (scan_maximum_lost 40000 [30000; 30000]); [lia|].
  repeat constructor; lia.
Defined.

(** ** A balancing call as a whole *)

Lemma BuildDischargeConfig_full voltage_status m :
  let staged :=
    {| command := command (slave_cfg_tx (driver m));
       register_group :=
         fst (stage (discharge_mode (driver m)) voltage_status (beyond m)
                (cell_data (driver m)) (register_group (slave_cfg_tx (driver m)))) |} in
  let written := bus m (transactions m) in
  let read_back := bus m (S (transactions m)) in
  BuildDischargeConfig voltage_status m
  = (tt,
     {| driver :=
          set_slave_cfg_rx
            (snd (ReadRegisterGroup_reply U8 read_back (slave_cfg_rx (driver m))))
            (set_slave_cfg_tx staged (driver m));
        bus := bus m;
        transactions := S (S (transactions m));
        trace :=
          trace m
          ++ (concat (repeat idle_pulse 12)
              ++ [GPIO_WritePin false; SPI_Transmit (serialized_group U8 staged);
                  GPIO_WritePin true])
          ++ [DWT_Delay 500]
          ++ concat (repeat idle_pulse 12)
          ++ [GPIO_WritePin false;
              SPI_Transmit (command (slave_cfg_rx (driver m)));
              GPIO_WritePin false]
          ++ (if is_HAL_ERROR (transmit_status read_back) then []
              else [SPI_Receive 96]);
        beyond := beyond m |}).
Proof.
  cbn zeta. unfold BuildDischargeConfig.
  unfold bind at 1. unfold this at 1.
  unfold bind at 1. unfold outside at 1.
  unfold bind at 1. unfold assign at 1.
  unfold bind at 1. unfold WriteConfigRegisterGroup. rewrite WriteRegisterGroup_full.
  cbn [driver bus transactions trace beyond set_slave_cfg_tx slave_cfg_tx].
  unfold bind at 1. unfold emit at 1.
  cbn [driver bus transactions trace beyond].
  unfold bind at 1. unfold ReadConfigRegisterGroup. rewrite ReadRegisterGroup_full.
  cbn [driver bus transactions trace beyond set_slave_cfg_tx slave_cfg_rx
       slave_cfg_tx].
  unfold ret. f_equal. f_equal. rewrite <- !app_assoc. reflexivity.
Qed.

(** X19: a balancing call uses exactly two bus replies, one for the write
    and one for the read-back.  Neither reply has any influence on what stays
    staged in the transmit configuration group: a failed write or read-back
    rolls nothing back.  The stream written is the newly staged group; the
    read-back lands in the receive configuration group only; the cell-voltage
    buffers and the discharge mode are left alone. *)
Theorem BuildDischargeConfig_frame voltage_status m :
  let m' := snd (BuildDischargeConfig voltage_status m) in
  transactions m' = S (S (transactions m))
  /\ register_group (slave_cfg_tx (driver m'))
     = fst (stage (discharge_mode (driver m)) voltage_status (beyond m)
              (cell_data (driver m)) (register_group (slave_cfg_tx (driver m))))
  /\ In (SPI_Transmit (serialized_group U8 (slave_cfg_tx (driver m')))) (trace m')
  /\ slave_cfg_rx (driver m')
     = snd (ReadRegisterGroup_reply U8 (bus m (S (transactions m)))
              (slave_cfg_rx (driver m)))
  /\ cell_data (driver m') = cell_data (driver m)
  /\ discharge_mode (driver m') = discharge_mode (driver m).
Proof.
  cbn zeta. rewrite BuildDischargeConfig_full.
  cbn [snd driver transactions trace set_slave_cfg_rx set_slave_cfg_tx
       slave_cfg_tx slave_cfg_rx cell_data discharge_mode register_group].
  repeat split.
  apply in_or_app. right. apply in_or_app. left.
  apply in_or_app. right. right. left. reflexivity.
Qed.

(** X20: the max-only policy never selects the twelfth cell of a device:
    in any register a max-only call has changed, bit 3 of byte 5 (mask bit 11)
    is clear, because the bit position is taken modulo 11. *)
Theorem MaxOnly_never_stages_bit_11 voltage_status m :
  discharge_mode (driver m) = MaxOnly ->
  0 <= max_id voltage_status < 2 ^ 32 ->
  Forall (fun r => length (data r) = 6%nat) (register_group (slave_cfg_tx (driver m))) ->
  forall device r r',
    register_group (slave_cfg_tx (driver m)) !! device = Some r ->
    register_group (slave_cfg_tx (driver (snd (BuildDischargeConfig voltage_status m))))
      !! device = Some r' ->
    r' = r
    \/ exists b5, data r' !! 5%nat = Some b5 /\ Z.testbit b5 3 = false.
Proof.
  intros Hmode Hid Hwf device r r' Hr Hr'.
  rewrite BuildDischargeConfig_staged in Hr'. cbn [register_group] in Hr'.
  rewrite Hmode in Hr'. unfold stage in Hr'. cbn [fst] in Hr'.
  unfold stage_max_only in Hr'.
  destruct (max voltage_status - min voltage_status >? kDelta).
  - rewrite max_only_ic, max_only_DCCx in Hr' by exact Hid.
    destruct (Nat.eq_dec (Z.to_nat (max_id voltage_status / 3 mod 12)) device)
      as [Heq | Hne].
    + right. rewrite Heq, list_lookup_alter_eq, Hr in Hr'. injection Hr' as <-.
      assert (Hr6 : length (data r) = 6%nat).
      { rewrite Forall_lookup in Hwf. exact (Hwf _ _ Hr). }
      destruct (store_DCCx_effect (2 ^ (max_id voltage_status mod 11)) r Hr6)
        as (_ & _ & _ & b4 & b5 & _ & H5 & _ & _ & _ & B5).
      exists b5. split; [exact H5|].
      rewrite B5 by lia.
      pose proof (Z.mod_pos_bound (max_id voltage_status) 11 ltac:(lia)) as Hb.
      rewrite Z.pow2_bits_eqb by lia.
      replace (max_id voltage_status mod 11 =? 3 + 8) with false
        by (symmetry; apply Z.eqb_neq; lia).
      reflexivity.
    + left. rewrite list_lookup_alter_ne, Hr in Hr' by exact Hne.
      injection Hr' as <-. reflexivity.
  - left. rewrite Hr in Hr'. injection Hr' as <-. reflexivity.
Qed.

Lemma MaxOnly_never_stages_bit_11_witness :
  discharge_mode (driver (machine_in MaxOnly)) = MaxOnly
  /\ forall device r r',
       fresh_cfg !! device = Some r ->
       register_group
         (slave_cfg_tx (driver (snd (BuildDischargeConfig status_spread
                                       (machine_in MaxOnly)))))
         !! device = Some r' ->
       r' = r
       \/ exists b5, data r' !! 5%nat = Some b5 /\ Z.testbit b5 3 = false.
Proof.
  split; [reflexivity|].
  apply (MaxOnly_never_stages_bit_11 status_spread (machine_in MaxOnly));
    [reflexivity|cbn; lia|exact (proj2 fresh_cfg_well_formed)].
Defined.

(** ** Masks staged one after the other *)

Lemma u8_bits x n : 0 <= n -> Z.testbit (u8 x) n = (n <? 8) && Z.testbit x n.
Proof.
  intros Hn. unfold u8, wrap. destruct (n <? 8) eqn:E.
  - apply Z.ltb_lt in E. rewrite Z.mod_pow2_bits_low by lia. reflexivity.
  - apply Z.ltb_ge in E. rewrite Z.mod_pow2_bits_high by lia. reflexivity.
Qed.

Lemma or_byte_twice (mask_a mask_b b : Z) :
  u8 (Z.lor (u8 (Z.lor b mask_b)) mask_a) = u8 (Z.lor b (Z.lor mask_a mask_b)).
Proof.
  apply Z.bits_inj'. intros n Hn.
  rewrite !u8_bits, !Z.lor_spec, u8_bits, !Z.lor_spec by exact Hn.
  destruct (n <? 8), (Z.testbit b n), (Z.testbit mask_a n), (Z.testbit mask_b n);
    reflexivity.
Qed.

Lemma land_lor_distr a b c :
  Z.land (Z.lor a b) c = Z.lor (Z.land a c) (Z.land b c).
Proof. apply Z.land_lor_distr_l. Qed.

(** X21: under the threshold policies staging is cumulative.  Staging mask
    [b] and then mask [a] onto a configuration register leaves the register
    exactly as staging their union once does, PEC included; staging the same
    mask again changes nothing. *)
Theorem or_DCCx_accumulates (a b : Z) (r : LTC6811Register) :
  or_DCCx a (or_DCCx b r) = or_DCCx (Z.lor a b) r
  /\ or_DCCx a (or_DCCx a r) = or_DCCx a r.
Proof.
  assert (Hunion : forall a b,
            data (or_DCCx a (or_DCCx b r)) = data (or_DCCx (Z.lor a b) r)).
  { intros a' b'. unfold or_DCCx. cbn [data].
    rewrite (list_alter_alter_ne _ _ _ 4 5) by discriminate.
    rewrite !list_alter_alter_eq.
    apply list_alter_ext.
    - intros x _. cbn [compose].
      rewrite or_byte_twice, Z.shiftr_lor, land_lor_distr. reflexivity.
    - apply list_alter_ext; [|reflexivity]. intros x _. cbn [compose].
      rewrite or_byte_twice, land_lor_distr. reflexivity. }
  assert (Hreg : forall a b, or_DCCx a (or_DCCx b r) = or_DCCx (Z.lor a b) r).
  { intros a' b'. specialize (Hunion a' b').
    unfold or_DCCx in *. cbn [data PEC] in *. rewrite Hunion. reflexivity. }
  split; [apply Hreg|].
  rewrite Hreg, Z.lor_diag. reflexivity.
Qed.

(** ** Temperature status *)






Lemma read_aux_groups_reads_voltage groups :
  Temperature.read_aux_groups groups = read_voltage_groups groups.
Proof.
  induction groups as [|group groups IH]; [reflexivity|].
  cbn [Temperature.read_aux_groups read_voltage_groups]. rewrite IH.
  unfold ReadAuxRegisterGroup, ReadVoltageRegisterGroup. reflexivity.
Qed.

(** X23: [GetTemperatureStatus] applies the same test to its reads as
    [GetVoltageStatus]: it returns [nullopt] exactly when one of the reads it
    makes reports success, and a temperature status only when all four reads
    report failure. *)
Theorem GetTemperatureStatus_nullopt_iff (steinharthart : Z -> Z) m :
  fst (Temperature.GetTemperatureStatus steinharthart m) = None <->
  exists k, (k < 4)%nat
            /\ reply_fails U16 (bus m (transactions m + k)%nat) = false.
Proof.
  unfold Temperature.GetTemperatureStatus. rewrite !run_bind.
  change (snd (this m)) with m. change (fst (this m)) with (driver m).
  destruct (quiet_StartConversion (ADAX (driver m)) m) as (_ & Hbus & Htx & _).
  generalize dependent (snd (StartConversion (ADAX (driver m)) m)).
  intros m1 Hbus Htx.
  rewrite read_aux_groups_reads_voltage.
  destruct (read_voltage_groups_returned [A; B; C; D] m1) as [Hret _].
  rewrite Hbus, Htx in Hret. cbn [length] in Hret. rewrite <- Hret.
  destruct (fst (read_voltage_groups [A; B; C; D] m1)).
  - split; reflexivity.
  - rewrite run_bind. split; discriminate.
Qed.
